(** * Career-advisor application (app.py): embedding and verified properties

    The application is a single Python module.  Its logic is a handful of
    dictionary lookups ([get_skills_for_user]), a linear gap computation
    ([skill_gap_analysis_df]), a regex-driven command parser
    ([parse_special_commands]) and the error handling around two external
    services ([fetch_industry_news], [show_mentor_chat]).

    Conventions of the embedding:
    - a Python [str] is the list of its Unicode code points ([list N]);
    - a Python [dict] whose iteration order matters is an association list,
      one that is only looked up is a [gmap];
    - a call that may raise returns a [result]; code that also mutates
      [st.session_state] returns the final session next to the result, so the
      session is observable after an exception as well;
    - the external services (completion API, news API, secrets store) are
      fields of a [world] record over which every theorem quantifies. *)

From Stdlib Require Import ZArith NArith Ascii String.
From stdpp Require Import gmap list fin_maps.

Local Open Scope N_scope.

(** ** Python strings *)

Module Str.

(** An ASCII literal of the source as a list of code points. *)
Fixpoint lit (s : string) : list N :=
  match s with
  | EmptyString => []
  | String a s' => N_of_ascii a :: lit s'
  end.
Arguments lit s%_string_scope : simpl never.

(** [str.isspace] on one code point, which is also the class [\s] of [re]
    on [str] patterns: the whitespace table of CPython. *)
Definition isspace (c : N) : bool :=
  ((0x09 <=? c) && (c <=? 0x0D)) || ((0x1C <=? c) && (c <=? 0x20))
  || (c =? 0x85) || (c =? 0xA0) || (c =? 0x1680)
  || ((0x2000 <=? c) && (c <=? 0x200A))
  || (c =? 0x2028) || (c =? 0x2029) || (c =? 0x202F) || (c =? 0x205F)
  || (c =? 0x3000).

Fixpoint lstrip_by (p : N → bool) (s : list N) : list N :=
  match s with
  | [] => []
  | c :: s' => if p c then lstrip_by p s' else s
  end.

Definition rstrip_by (p : N → bool) (s : list N) : list N :=
  rev (lstrip_by p (rev s)).

(** [s.strip(chars)] with [p] the membership test of [chars]. *)
Definition strip_by (p : N → bool) (s : list N) : list N :=
  rstrip_by p (lstrip_by p s).

(** [s.strip()] *)
Definition strip : list N → list N := strip_by isspace.

(** [c in chars] *)
Definition mem (chars : list N) (c : N) : bool :=
  existsb (N.eqb c) chars.

(** [s.split(sep)] for a one-character separator: never the empty list. *)
Fixpoint split (sep : N) (s : list N) : list (list N) :=
  match s with
  | [] => [[]]
  | c :: s' =>
      if c =? sep then [] :: split sep s'
      else match split sep s' with
           | [] => [[c]]
           | w :: ws => (c :: w) :: ws
           end
  end.

(** [s.replace(a, b)] for one-character [a] and [b]. *)
Definition replace (a b : N) (s : list N) : list N :=
  (λ c, if c =? a then b else c) <$> s.

Definition is_ascii_upper (c : N) : bool := (0x41 <=? c) && (c <=? 0x5A).
Definition is_ascii_lower (c : N) : bool := (0x61 <=? c) && (c <=? 0x7A).

Definition ascii_upper (c : N) : N := if is_ascii_lower c then c - 32 else c.
Definition ascii_lower (c : N) : N := if is_ascii_upper c then c + 32 else c.

(** [s.capitalize()], exact on ASCII strings (the only ones the
    application capitalizes are its own two command keys). *)
Definition capitalize (s : list N) : list N :=
  match s with
  | [] => []
  | c :: s' => ascii_upper c :: (ascii_lower <$> s')
  end.

(** Truthiness of a string: [if s:] *)
Definition truthy (s : list N) : bool :=
  match s with [] => false | _ => true end.

(** Truthiness of a value that is a string or [None]. *)
Definition truthy_opt (o : option (list N)) : bool :=
  match o with Some s => truthy s | None => false end.

End Str.

Abbreviation str := (list N).

(** ** The fragment of [re] used by the command patterns *)

Module Re.

Inductive atom :=
| Chr (c : N)     (* a literal character of the pattern *)
| Space           (* \s *)
| Dot.            (* .  (no DOTALL: anything but a newline) *)

Inductive node :=
| One (a : atom)          (* a     *)
| Star (a : atom)         (* a*    greedy *)
| GroupStar (a : atom).   (* (a* ) greedy, capturing group 1 *)

(** Simple lower-casing of [re.IGNORECASE], restricted to the code points
    that lower to ASCII (the pattern literals are lower-case ASCII):
    A-Z, U+0130 (capital I with dot above) and U+212A (Kelvin sign). *)
Definition lower (c : N) : N :=
  if Str.is_ascii_upper c then c + 32
  else if c =? 0x130 then 0x69
  else if c =? 0x212A then 0x6B
  else c.

(** A literal under IGNORECASE: equal after lower-casing, or one of the
    extra equivalences of the engine that reach ASCII letters
    (i ~ U+0131 dotless i, s ~ U+017F long s). *)
Definition chr_matches_ignorecase (p x : N) : bool :=
  (lower x =? lower p)
  || ((lower p =? 0x69) && (x =? 0x131))
  || ((lower p =? 0x73) && (x =? 0x17F)).

Definition atom_matches (a : atom) (x : N) : bool :=
  match a with
  | Chr p => chr_matches_ignorecase p x
  | Space => Str.isspace x
  | Dot => negb (x =? 0x0A)
  end.

(** A greedy star of [a] followed by the continuation [k]: first try to
    take one more character, fall back to [k] on the rest (backtracking
    from the longest repetition down). *)
Fixpoint star_loop (a : atom) (k : str → option (option str)) (s : str)
  : option (option str) :=
  match s with
  | c :: s' =>
      if atom_matches a c then
        match star_loop a k s' with
        | Some res => Some res
        | None => k s
        end
      else k s
  | [] => k s
  end.

(** The same inside group 1: [taken] is what the group holds so far. *)
Fixpoint group_loop (a : atom) (k : str → str → option (option str))
    (s : str) (taken : str) : option (option str) :=
  match s with
  | c :: s' =>
      if atom_matches a c then
        match group_loop a k s' (taken ++ [c]) with
        | Some res => Some res
        | None => k s taken
        end
      else k s taken
  | [] => k s taken
  end.

(** Backtracking match of the node list [r] at the head of [s]; [g] is
    group 1 so far ([None] while it has not taken part in the match).  The
    result is [None] when there is no match here, otherwise the final
    group 1. *)
Fixpoint match_here (r : list node) (s : str) (g : option str)
  : option (option str) :=
  match r with
  | [] => Some g
  | One a :: r' =>
      match s with
      | c :: s' => if atom_matches a c then match_here r' s' g else None
      | [] => None
      end
  | Star a :: r' => star_loop a (λ rest, match_here r' rest g) s
  | GroupStar a :: r' =>
      group_loop a (λ rest taken, match_here r' rest (Some taken)) s []
  end.

(** [re.search(r, s, flags=re.IGNORECASE)]: the match at the leftmost
    position that has one; [None] when there is none, otherwise
    [Some g] with [g] what [match.group(1)] returns. *)
Fixpoint search (r : list node) (s : str) : option (option str) :=
  match match_here r s None with
  | Some g => Some g
  | None => match s with
            | [] => None
            | _ :: s' => search r s'
            end
  end.

(** The pattern made of a literal, then [\s*], then group 1 holding a
    greedy star of [.]: the shape of both command patterns. *)
Definition directive (literal : str) : list node :=
  (One ∘ Chr <$> literal) ++ [Star Space; GroupStar Dot].

Definition is_group (n : node) : bool :=
  match n with GroupStar _ => true | _ => false end.

End Re.

(** ** Exceptions *)

(** The exceptions the application can meet.  [str(e)] of an [Exception] is
    its [detail].  [StopException] is what [st.stop()] raises: it derives
    from [BaseException] only, so [except Exception] lets it through while a
    bare [except:] catches it. *)
Inductive exn :=
| Exception (cls : string) (detail : str)
| StopException.

Definition is_Exception (e : exn) : bool :=
  match e with
  | Exception _ _ => true
  | StopException => false
  end.

(** [f"{e}"] *)
Definition exn_str (e : exn) : str :=
  match e with
  | Exception _ detail => detail
  | StopException => []
  end.

Inductive result (A : Type) :=
| Ok (a : A)
| Raise (e : exn).
Arguments Ok {A} a.
Arguments Raise {A} e.

#[export] Instance result_ret : MRet result := λ A a, Ok a.
#[export] Instance result_bind : MBind result := λ A B f m,
  match m with
  | Ok a => f a
  | Raise e => Raise e
  end.

(** [try: body / except: handler] (bare except: every exception). *)
Definition try_except {A} (body : result A) (handler : exn → result A)
  : result A :=
  match body with
  | Ok a => Ok a
  | Raise e => handler e
  end.

(** [try: body / except Exception as e: handler e] *)
Definition try_except_Exception {A} (body : result A)
    (handler : exn → result A) : result A :=
  match body with
  | Ok a => Ok a
  | Raise e => if is_Exception e then handler e else Raise e
  end.

(** [[f x for x in l]] when [f] may raise: left to right, the first
    exception aborts the comprehension. *)
Fixpoint comprehension {A B} (f : A → result B) (l : list A)
  : result (list B) :=
  match l with
  | [] => Ok []
  | x :: l' => y ← f x; ys ← comprehension f l'; mret (y :: ys)
  end.

(** ** Data model *)

(** [st.session_state.user_profile]: a dict with the five keys written by
    the intake form; a field is [None] when its key is absent (the empty
    dict of a fresh session has them all absent). *)
Record profile := {
  name : option str;
  profession : option str;
  experience_years : option Z;
  career_goals : option str;
  career_interests : option (list str);
}.

Definition empty_profile : profile :=
  {| name := None; profession := None; experience_years := None;
     career_goals := None; career_interests := None |}.

(** One entry of [chat_history]: [{"role": ..., "content": ...}]. *)
Record chat_turn := {
  role : str;
  content : str;
}.

(** [st.session_state].  [personal_skills] keeps the insertion order of the
    dict, which [skill_gap_analysis_df] iterates; each value is the dict of
    levels of one skill. *)
Record session := {
  user_profile : profile;
  personal_skills : list (str * gmap str Z);
  chat_history : list chat_turn;
  context : gmap str str;
}.

(** The data interpolated into the prompt of a completion request (the
    rendering of the dicts into the f-string is not modelled). *)
Inductive prompt :=
| SkillPrompt (p : profile)
| MentorPrompt (p : profile) (ctx : gmap str str) (question : str).

(** Parsed JSON, as [response.json()] returns it; the items of a [JDict]
    have distinct keys. *)
#[warnings="-register-all"]
Inductive json :=
| JNull
| JBool (b : bool)
| JNum (z : Z)
| JStr (s : str)
| JList (l : list json)
| JDict (items : list (str * json)).

(** What [requests.get] returns: the status code and the body, [None] when
    the body is not JSON. *)
Record response := {
  status_code : Z;
  body : option json;
}.

(** Everything outside the process, as a page function finds it.  [secrets]
    and [secrets_toml] are the contents of the two secrets files once they
    have been read: the script reads them on line 26, before any page
    function runs, so a page function always finds them readable.  The
    reading itself, which can fail, is [load_openai_api_key] below. *)
Record world := {
  secrets : gmap str str;                 (* st.secrets *)
  secrets_toml : option (gmap str str);   (* secrets.toml, when it exists *)
  environ : gmap str str;                 (* os.environ *)
  chat_completions_create : str → prompt → result str;
      (* client.chat.completions.create(...).choices[0].message.content,
         for the client built from the given key *)
  requests_get : str → result response;   (* requests.get(url) *)
}.

(** ** API setup *)

(** Lines 15-24 in a world whose secrets files have been read (see
    [load_openai_api_key] for the reads and their failures). *)
Definition get_openai_api_key (w : world) : option str :=
  let api_key := secrets w !! Str.lit "OPENAI_API_KEY" in
  if Str.truthy_opt api_key then api_key
  else match secrets_toml w with
       | Some config => config !! Str.lit "OPENAI_API_KEY"
       | None => None
       end.

(** Returns the key the client is built from; [st.stop()] when there is
    none (or an empty one). *)
Definition get_openai_client (w : world) : result str :=
  match get_openai_api_key w with
  | Some k => if Str.truthy k then Ok k else Raise StopException
  | None => Raise StopException
  end.

(** The two secrets files as a run of the script finds them.  Without a
    Streamlit secrets store every [st.secrets.get] raises; [secrets.toml]
    may be absent, and [toml.load] raises on a file it cannot parse. *)
Record secrets_files := {
  streamlit_secrets : result (gmap str str);
      (* st.secrets; [Raise e] when there is no store *)
  local_secrets_toml : option (result (gmap str str));
      (* ./secrets.toml; [None] when absent, [Some (Raise e)] when
         toml.load raises *)
}.

(** Lines 15-24 with their two reads: the store first, the file only when
    the store has no non-empty key. *)
Definition load_openai_api_key (f : secrets_files) : result (option str) :=
  store ← streamlit_secrets f;
  let api_key := store !! Str.lit "OPENAI_API_KEY" in
  if Str.truthy_opt api_key then mret api_key
  else match local_secrets_toml f with
       | Some loaded =>
           config ← loaded; mret (config !! Str.lit "OPENAI_API_KEY")
       | None => mret None
       end.

(** Lines 34-39 with the same reads. *)
Definition load_openai_client (f : secrets_files) : result str :=
  api_key ← load_openai_api_key f;
  match api_key with
  | Some k => if Str.truthy k then Ok k else Raise StopException
  | None => Raise StopException
  end.

(** The files of a world in which both were read. *)
Definition files_of (w : world) : secrets_files :=
  {| streamlit_secrets := Ok (secrets w);
     local_secrets_toml := Ok <$> secrets_toml w |}.

(** The world that the rest of a run lives in once line 26 has gone
    through the files [f]: their contents, with the services of [w].  A
    file that line 26 did not read successfully is not read later in the
    run either. *)
Definition readable_world (f : secrets_files) (w : world) : world :=
  {| secrets := match streamlit_secrets f with
                | Ok store => store
                | Raise _ => secrets w
                end;
     secrets_toml := match local_secrets_toml f with
                     | Some (Ok config) => Some config
                     | _ => None
                     end;
     environ := environ w;
     chat_completions_create := chat_completions_create w;
     requests_get := requests_get w |}.

(** ** Static skill tables *)

Definition skills_by_profession : gmap str (list str) :=
  list_to_map
    [ (Str.lit "Data Analyst",
        Str.lit <$> ["Python"; "SQL"; "Data Visualization"; "Statistics"]%string);
      (Str.lit "Software Engineer",
        Str.lit <$> ["Python"; "Algorithms"; "Data Structures"; "System Design"]%string);
      (Str.lit "Project Manager",
        Str.lit <$> ["Leadership"; "Project Planning"; "Risk Management"; "Agile"]%string);
      (Str.lit "Student",
        Str.lit <$> ["Time Management"; "Research"; "Presentation Skills"]%string) ].

Definition skills_by_industry : gmap str (list str) :=
  list_to_map
    [ (Str.lit "IT",
        Str.lit <$> ["Cloud Computing"; "Machine Learning"; "Python"]%string);
      (Str.lit "Healthcare",
        Str.lit <$> ["Medical Terminology"; "Patient Care"; "Data Compliance"]%string);
      (Str.lit "Finance",
        Str.lit <$> ["Financial Modeling"; "Risk Analysis"; "Excel"]%string);
      (Str.lit "Education",
        Str.lit <$> ["Curriculum Planning"; "Teaching Skills"; "Assessment Design"]%string);
      (Str.lit "Engineering",
        Str.lit <$> ["CAD"; "Mathematics"; "Project Management"]%string);
      (Str.lit "Others", []) ].

(** ** AI-powered skill suggestions *)

(** The characters of the argument of [strip] on line 89, as the file has
    them: hyphen, U+00E2, U+20AC, U+00A2 and space. *)
Definition bullet_chars : str := [0x2D; 0xE2; 0x20AC; 0xA2; 0x20].

Definition fetch_dynamic_skills (w : world) (p : profile) : result (list str) :=
  client ← get_openai_client w;
  content ← chat_completions_create w client (SkillPrompt p);
  mret (Str.strip_by (Str.mem bullet_chars)
          <$> filter (λ s, Str.truthy (Str.strip s) = true)
                     (Str.split 0x0A content)).

Definition prof_skills (p : profile) : list str :=
  default [] (skills_by_profession !! default [] (profession p)).

(** The loop of lines 93-95. *)
Fixpoint extend_industry_skills (industry_skills : list str)
    (interests : list str) : list str :=
  match interests with
  | [] => industry_skills
  | ind :: rest =>
      extend_industry_skills
        (industry_skills ++ default [] (skills_by_industry !! ind)) rest
  end.

Definition industry_skills (p : profile) : list str :=
  extend_industry_skills [] (default [] (career_interests p)).

(** [list(set(...))]: the elements without repetition, in an order the
    language does not fix. *)
Definition list_of_set (l : list str) : list str :=
  elements (list_to_set l : gset str).

Definition get_skills_for_user (w : world) (p : profile) : result (list str) :=
  let prof_skills := prof_skills p in
  let industry_skills := industry_skills p in
  ai_suggested ← fetch_dynamic_skills w p;
  mret (list_of_set (prof_skills ++ industry_skills ++ ai_suggested)).

(** ** Gap calculator *)

(** One row of the data frame. *)
Record gap_row := {
  Skill : str;
  Current_Level : Z;
  Target_Level : Z;
  Gap : Z;
}.

(** The row built on lines 102-104 for one item of the dict. *)
Definition gap_row_of (skill : str) (levels : gmap str Z) : gap_row :=
  let current := default 0%Z (levels !! Str.lit "current") in
  let target := default 0%Z (levels !! Str.lit "target") in
  {| Skill := skill; Current_Level := current; Target_Level := target;
     Gap := (target - current)%Z |}.

(** The loop of lines 101-104, appending to [data]. *)
Fixpoint gap_rows (data : list gap_row) (items : list (str * gmap str Z))
  : list gap_row :=
  match items with
  | [] => data
  | (skill, levels) :: rest => gap_rows (data ++ [gap_row_of skill levels]) rest
  end.

(** [pd.DataFrame(data)] of a list of row dicts is the list of rows. *)
Definition skill_gap_analysis_df (skills_dict : list (str * gmap str Z))
  : list gap_row :=
  gap_rows [] skills_dict.

(** ** News fetcher *)

Module Json.

Fixpoint assoc (key : str) (items : list (str * json)) : option json :=
  match items with
  | [] => None
  | (k, v) :: rest => if decide (k = key) then Some v else assoc key rest
  end.

(** [d.get(key, dflt)] *)
Definition get (d : json) (key : str) (dflt : json) : result json :=
  match d with
  | JDict items => Ok (default dflt (assoc key items))
  | _ => Raise (Exception "AttributeError" [])
  end.

(** [for a in v]: the elements of a list, the keys of a dict, the
    characters of a string. *)
Definition iter (v : json) : result (list json) :=
  match v with
  | JList l => Ok l
  | JDict items => Ok (JStr ∘ fst <$> items)
  | JStr s => Ok ((λ c, JStr [c]) <$> s)
  | _ => Raise (Exception "TypeError" [])
  end.

(** [v[key]] for a string key. *)
Definition getitem (v : json) (key : str) : result json :=
  match v with
  | JDict items =>
      match assoc key items with
      | Some x => Ok x
      | None => Raise (Exception "KeyError" key)
      end
  | _ => Raise (Exception "TypeError" [])
  end.

End Json.

(** [response.raise_for_status()] *)
Definition raise_for_status (r : response) : result unit :=
  if bool_decide (400 ≤ status_code r < 600)%Z
  then Raise (Exception "HTTPError" [])
  else Ok ().

(** [response.json()] *)
Definition response_json (r : response) : result json :=
  match body r with
  | Some v => Ok v
  | None => Raise (Exception "JSONDecodeError" [])
  end.

Definition NEWS_API_KEY (w : world) : str :=
  let from_secrets := secrets w !! Str.lit "NEWS_API_KEY" in
  let from_env := environ w !! Str.lit "NEWS_API_KEY" in
  if Str.truthy_opt from_secrets then default [] from_secrets
  else if Str.truthy_opt from_env then default [] from_env
  else Str.lit "YOUR_NEWSAPI_KEY".

Definition news_url (w : world) (industry : str) : str :=
  Str.lit "https://newsapi.org/v2/everything?q=" ++ industry
  ++ Str.lit "&pageSize=5&sortBy=publishedAt&apiKey=" ++ NEWS_API_KEY w.

(** The body of the [try] block, lines 114-117. *)
Definition fetch_industry_news_try (w : world) (url : str)
  : result (list (json * json)) :=
  response ← requests_get w url;
  _ ← raise_for_status response;
  data ← response_json response;
  articles ← Json.get data (Str.lit "articles") (JList []);
  items ← Json.iter articles;
  comprehension
    (λ a, title ← Json.getitem a (Str.lit "title");
          url ← Json.getitem a (Str.lit "url");
          mret (title, url))
    items.

Definition fetch_industry_news (w : world) (industry : str)
  : result (list (json * json)) :=
  let url := news_url w industry in
  try_except (fetch_industry_news_try w url) (λ _, Ok []).

(** ** Mentor chat *)

Definition get_ai_mentor_response (w : world) (user_input : str) (s : session)
  : result str :=
  let profile := user_profile s in
  let context := context s in
  client ← get_openai_client w;
  chat_completions_create w client (MentorPrompt profile context user_input).

Definition command_patterns : list (str * list Re.node) :=
  [ (Str.lit "timeline", Re.directive (Str.lit "timeline:"));
    (Str.lit "prep_level", Re.directive (Str.lit "prep level:")) ].

(** [key.replace('_', ' ').capitalize()] *)
Definition humanize (key : str) : str :=
  Str.capitalize (Str.replace 0x5F 0x20 key).

Definition set_context (ctx : gmap str str) (s : session) : session :=
  {| user_profile := user_profile s; personal_skills := personal_skills s;
     chat_history := chat_history s; context := ctx |}.

(** Lines 151-155: what the loop returns once [pattern] of [key] matched
    with [m] as group 1. *)
Definition directive_matched (key : str) (m : option str) (s : session)
  : option str * session :=
  let value := Str.strip (default [] m) in
  if negb (Str.truthy value) then
    (Some (humanize key ++ Str.lit " value missing. Please provide a value."),
     s)
  else
    (Some (humanize key ++ Str.lit " recorded: " ++ value ++ Str.lit "."),
     set_context (<[key := value]> (context s)) s).

(** The loop of lines 148-156 over the remaining patterns; the result is
    the returned value ([None] or a message) and the session after the
    call. *)
Fixpoint parse_loop (patterns : list (str * list Re.node)) (user_input : str)
    (s : session) : option str * session :=
  match patterns with
  | [] => (None, s)
  | (key, pattern) :: rest =>
      match Re.search pattern user_input with
      | Some m => directive_matched key m s
      | None => parse_loop rest user_input s
      end
  end.

Definition parse_special_commands (user_input : str) (s : session)
  : option str * session :=
  parse_loop command_patterns user_input s.

(** [st.session_state.chat_history.append({"role": r, "content": c})] *)
Definition chat_append (r c : str) (s : session) : session :=
  {| user_profile := user_profile s; personal_skills := personal_skills s;
     chat_history := chat_history s ++ [ {| role := r; content := c |} ];
     context := context s |}.

(** One run of the chat page; [user_input] is what [st.chat_input] returned
    ([None] when nothing was submitted).  The rendering of the transcript
    (lines 225-227) reads the history and changes nothing. *)
Definition show_mentor_chat (w : world) (user_input : option str)
    (s : session) : result unit * session :=
  if Str.truthy_opt user_input then
    let user_input := default [] user_input in
    let s1 := chat_append (Str.lit "user") user_input s in
    let '(response, s2) := parse_special_commands user_input s1 in
    let response :=
      match response with
      | Some r => Ok r
      | None =>
          try_except_Exception (get_ai_mentor_response w user_input s2)
            (λ e, Ok (Str.lit "Sorry, there was an error: " ++ exn_str e))
      end in
    match response with
    | Ok r => (Ok (), chat_append (Str.lit "assistant") r s2)
    | Raise e => (Raise e, s2)
    end
  else (Ok (), s).


(** ** Example data used in the statements below *)

(** The profile of the end-to-end example: a data analyst interested in
    IT. *)
Definition ana : profile :=
  {| name := Some (Str.lit "Ana");
     profession := Some (Str.lit "Data Analyst");
     experience_years := Some 3%Z;
     career_goals := Some (Str.lit "Lead an analytics team");
     career_interests := Some [Str.lit "IT"] |}.

(** A fresh session, as lines 44-54 initialise it. *)
Definition fresh_session : session :=
  {| user_profile := empty_profile; personal_skills := [];
     chat_history := []; context := ∅ |}.

(** A world with a completion key in which the completion service answers
    [completion] to every request and the news service answers [news]. *)
Definition sample_world (completion : result str) (news : result response)
  : world :=
  {| secrets := {[ Str.lit "OPENAI_API_KEY" := Str.lit "sk-test" ]};
     secrets_toml := None;
     environ := ∅;
     chat_completions_create := λ _ _, completion;
     requests_get := λ _, news |}.

(** An article that has both keys, and the pair the comprehension of
    line 117 makes of it. *)
Definition article_fields (a : json) (fields : json * json) : Prop :=
  ∃ items, a = JDict items
    ∧ Json.assoc (Str.lit "title") items = Some fields.1
    ∧ Json.assoc (Str.lit "url") items = Some fields.2.

(** ** Pages and the script *)

(** [d.get(key)] and [d[key] = value] on a dict kept as its item list: an
    existing key keeps its position and gets the new value, a new key goes
    last. *)
Fixpoint dict_get {V} (key : str) (items : list (str * V)) : option V :=
  match items with
  | [] => None
  | (k, v) :: rest => if decide (k = key) then Some v else dict_get key rest
  end.

Fixpoint dict_set {V} (key : str) (value : V) (items : list (str * V))
  : list (str * V) :=
  match items with
  | [] => [(key, value)]
  | (k, v) :: rest =>
      if decide (k = key) then (k, value) :: rest
      else (k, v) :: dict_set key value rest
  end.

Definition set_user_profile (p : profile) (s : session) : session :=
  {| user_profile := p; personal_skills := personal_skills s;
     chat_history := chat_history s; context := context s |}.

Definition set_personal_skills (ps : list (str * gmap str Z)) (s : session)
  : session :=
  {| user_profile := user_profile s; personal_skills := ps;
     chat_history := chat_history s; context := context s |}.

(** What the widgets of the intake form return in one run. *)
Record profile_form := {
  full_name : str;                  (* st.text_input("Full Name") *)
  current_profession : str;         (* st.selectbox over the professions *)
  years_of_experience : Z;          (* st.number_input, 0 to 50 *)
  career_goals_text : str;          (* st.text_area("Career Goals") *)
  industries_of_interest : list str;  (* st.multiselect over the industries *)
  save_profile : bool;              (* st.button("Save Profile") *)
}.

(** Lines 161-180. *)
Definition user_profile_form (f : profile_form) (s : session) : session :=
  if save_profile f then
    if negb (Str.truthy (full_name f))
       || negb (Str.truthy (career_goals_text f))
    then s
    else
      set_user_profile
        {| name := Some (full_name f);
           profession := Some (current_profession f);
           experience_years := Some (years_of_experience f);
           career_goals := Some (career_goals_text f);
           career_interests := Some (industries_of_interest f) |} s
  else s.

(** [st.slider(label, min_value, max_value, value=..., key=key)]: the
    widget is outside the process; it is asked with its key, its bounds and
    its default value, and returns the level the user chose or raises. *)
Definition slider_widget : Type := str → Z → Z → Z → result Z.

(** The dict [{'current': curr_level, 'target': target_level}]. *)
Definition levels_dict (curr_level target_level : Z) : gmap str Z :=
  {[ Str.lit "current" := curr_level; Str.lit "target" := target_level ]}.

(** The loop of lines 188-199 over the remaining skills.  [personal_skills]
    is the dict of the session itself, so what the loop has written stays
    written when a later widget raises. *)
Fixpoint rate_skills (slider : slider_widget) (skills : list str)
    (s : session) : result unit * session :=
  match skills with
  | [] => (Ok (), s)
  | skill :: rest =>
      let personal_skills := personal_skills s in
      let stored := default ∅ (dict_get skill personal_skills) in
      match slider (Str.lit "current_" ++ skill) 0%Z 5%Z
                   (default 0%Z (stored !! Str.lit "current")) with
      | Raise e => (Raise e, s)
      | Ok curr_level =>
          match slider (Str.lit "target_" ++ skill) curr_level 5%Z
                       (default curr_level (stored !! Str.lit "target")) with
          | Raise e => (Raise e, s)
          | Ok target_level =>
              rate_skills slider rest
                (set_personal_skills
                   (dict_set skill (levels_dict curr_level target_level)
                      personal_skills) s)
          end
      end
  end.

(** Lines 182-200. *)
Definition skill_rating_form (slider : slider_widget) (w : world)
    (s : session) : result unit * session :=
  match get_skills_for_user w (user_profile s) with
  | Raise e => (Raise e, s)
  | Ok skills => rate_skills slider skills s
  end.

(** Lines 218-221; the value is what is handed to [st.markdown].  The page
    asks the completion service twice, in the rating form and here; the
    service need not answer the same again, so the second request goes to
    [w_later], the world at that moment. *)
Definition show_skills_courses (slider : slider_widget) (w w_later : world)
    (s : session) : result (list str) * session :=
  match skill_rating_form slider w s with
  | (Raise e, s') => (Raise e, s')
  | (Ok _, s') => (fetch_dynamic_skills w_later (user_profile s'), s')
  end.

(** [profile[key]] on a field of the profile dict. *)
Definition profile_getitem {A} (field : option A) (key : string) : result A :=
  match field with
  | Some x => Ok x
  | None => Raise (Exception "KeyError" (Str.lit "'" ++ Str.lit key ++ Str.lit "'"))
  end.

(** [gap_df.set_index('Skill')['Gap']]: the gap of each skill.  A frame
    built from an empty list has no columns, so the index lookup raises. *)
Definition gap_series (gap_df : list gap_row) : result (list (str * Z)) :=
  match gap_df with
  | [] => Raise (Exception "KeyError"
                   (Str.lit "None of ['Skill'] are in the columns"))
  | _ => Ok ((λ row, (Skill row, Gap row)) <$> gap_df)
  end.

(** Lines 202-216.  The value is [None] when the page only shows the hint
    to rate skills first, otherwise the table and the series of the bar
    chart. *)
Definition show_dashboard (s : session)
  : result (option (list gap_row * list (str * Z))) :=
  let profile := user_profile s in
  _ ← profile_getitem (name profile) "name";
  _ ← profile_getitem (profession profile) "profession";
  _ ← profile_getitem (experience_years profile) "experience_years";
  _ ← profile_getitem (career_goals profile) "career_goals";
  match personal_skills s with
  | [] => mret None
  | _ =>
      let gap_df := skill_gap_analysis_df (personal_skills s) in
      series ← gap_series gap_df;
      mret (Some (gap_df, series))
  end.

(** What the news page shows below its input box. *)
Inductive news_view :=
| NothingShown                              (* the input box is empty *)
| NewsLinks (items : list (json * json))    (* one link per item *)
| NoNewsInfo.                               (* "No news found or unable to fetch." *)

(** Lines 241-250. *)
Definition show_industry_news (w : world) (industry : str)
  : result news_view :=
  if Str.truthy industry then
    news_items ← fetch_industry_news w industry;
    match news_items with
    | [] => mret NoNewsInfo
    | _ => mret (NewsLinks news_items)
    end
  else mret NothingShown.

(** The four entries of [menu]. *)
Inductive page := Dashboard | SkillsCourses | MentorshipChatbot | IndustryNews.

(** What the user does in one run of the script. *)
Record ui := {
  form : profile_form;
  choice : page;                 (* st.sidebar.selectbox over [menu] *)
  slider : slider_widget;
  chat_input : option str;       (* st.chat_input *)
  news_industry : str;           (* st.text_input of the news page *)
}.

(** Truthiness of the profile dict: false for the empty dict only. *)
Definition profile_truthy (p : profile) : bool :=
  match p with
  | {| name := None; profession := None; experience_years := None;
       career_goals := None; career_interests := None |} => false
  | _ => true
  end.

(** One run of the script, top to bottom: the key check of lines 26-29, the
    forced intake form of lines 259-261, then the chosen page.  [st.stop()]
    ends a run by raising [StopException].  [w] is the world during the
    run, [w_later] the one the skills page meets at its second request.
    The secrets of [w] are those line 26 has read; a run in which that
    read fails is [script] below. *)
Definition main (w w_later : world) (u : ui) (s : session)
  : result unit * session :=
  if negb (Str.truthy_opt (get_openai_api_key w)) then (Raise StopException, s)
  else if negb (profile_truthy (user_profile s)) then
    (Raise StopException, user_profile_form (form u) s)
  else
    match choice u with
    | Dashboard => (_ ← show_dashboard s; mret (), s)
    | SkillsCourses =>
        let '(r, s') := show_skills_courses (slider u) w w_later s in
        (_ ← r; mret (), s')
    | MentorshipChatbot => show_mentor_chat w (chat_input u) s
    | IndustryNews => (_ ← show_industry_news w (news_industry u); mret (), s)
    end.

(** A session: one run of the script per interaction. *)
Fixpoint run_session (steps : list (world * world * ui)) (s : session)
  : session :=
  match steps with
  | [] => s
  | (w, w_later, u) :: rest => run_session rest (main w w_later u s).2
  end.

(** One run of the script from the files on: when line 26 cannot read the
    secrets the run ends there with that exception, before the session is
    touched; otherwise it goes on as [main] in the world of the files. *)
Definition script (f : secrets_files) (w w_later : world) (u : ui)
    (s : session) : result unit * session :=
  match load_openai_api_key f with
  | Raise e => (Raise e, s)
  | Ok _ => main (readable_world f w) w_later u s
  end.

Fixpoint run_script_session
    (steps : list (secrets_files * world * world * ui)) (s : session)
  : session :=
  match steps with
  | [] => s
  | (f, w, w_later, u) :: rest =>
      run_script_session rest (script f w w_later u s).2
  end.

(** ** Predicates used in the statements below *)

(** The contract of the slider widget: a returned level lies within the
    bounds it was given. *)
Definition slider_in_range (slider : slider_widget) : Prop :=
  ∀ key lo hi value x, slider key lo hi value = Ok x → (lo ≤ x ≤ hi)%Z.

(** A levels dict as the rating form writes it, with levels in range. *)
Definition levels_ok (levels : gmap str Z) : Prop :=
  ∃ c t, levels = levels_dict c t ∧ (0 ≤ c ∧ c ≤ t ∧ t ≤ 5)%Z.

(** A value as the command parser stores it: not empty, on one line, with
    no whitespace at either end. *)
Definition trimmed_line (v : str) : Prop :=
  v ≠ []
  ∧ Forall (λ c, c ≠ 0x0A) v
  ∧ (∀ c, head v = Some c → Str.isspace c = false)
  ∧ (∀ c, last v = Some c → Str.isspace c = false).

(** A context as the command parser builds it. *)
Definition context_ok (ctx : gmap str str) : Prop :=
  ∀ key v, ctx !! key = Some v →
    (key = Str.lit "timeline" ∨ key = Str.lit "prep_level") ∧ trimmed_line v.

(** A profile as the intake form saves it: all five keys. *)
Definition profile_complete (p : profile) : Prop :=
  is_Some (name p) ∧ is_Some (profession p) ∧ is_Some (experience_years p)
  ∧ is_Some (career_goals p) ∧ is_Some (career_interests p).

(** A history made of questions each followed by its reply. *)
Definition alternating (history : list chat_turn) : Prop :=
  ∃ exchanges : list (str * str),
    history
    = exchanges ≫= (λ '(question, reply),
                      [ {| role := Str.lit "user"; content := question |};
                        {| role := Str.lit "assistant"; content := reply |} ]).

(** A completion service that fails with instances of [Exception] only. *)
Definition raises_Exception_only (w : world) : Prop :=
  ∀ k pr e, chat_completions_create w k pr = Raise e → is_Exception e = true.

(** [g] is what a directive captures in the text [rest] that follows its
    keyword: the blanks after the keyword are skipped, then [g] runs to the
    end of the line. *)
Definition line_after (rest g : str) : Prop :=
  ∃ ws tail, rest = ws ++ g ++ tail
    ∧ Forall (λ c, Str.isspace c = true) ws
    ∧ (∀ c, head (g ++ tail) = Some c → Str.isspace c = false)
    ∧ Forall (λ c, c ≠ 0x0A) g
    ∧ (tail = [] ∨ head tail = Some 0x0A).

(** A slider whose user leaves every level at its default value; like the
    widget it refuses a default outside the bounds. *)
Definition untouched_slider : slider_widget :=
  λ _ lo hi value,
    if bool_decide (lo ≤ value ≤ hi)%Z then Ok value
    else Raise (Exception "StreamlitAPIException" []).

(** A filled-in intake form. *)
Definition ana_form : profile_form :=
  {| full_name := Str.lit "Ana";
     current_profession := Str.lit "Data Analyst";
     years_of_experience := 3;
     career_goals_text := Str.lit "Lead an analytics team";
     industries_of_interest := [Str.lit "IT"];
     save_profile := true |}.

(** A run in which the user does [page_choice] and asks [question]. *)
Definition sample_ui (page_choice : page) (question : option str) : ui :=
  {| form := ana_form; choice := page_choice; slider := untouched_slider;
     chat_input := question; news_industry := Str.lit "Data Science" |}.

(** * Properties *)

(** ** Gap calculator *)

Section GapCalculator.

Implicit Types (data : list gap_row) (items : list (str * gmap str Z)).

Lemma gap_rows_app data items :
  gap_rows data items = data ++ (uncurry gap_row_of <$> items).
Proof.
  revert data. induction items as [|[skill levels] rest IH]; intros data.
  - by rewrite app_nil_r.
  - cbn [gap_rows]. rewrite IH, <- app_assoc. done.
Qed.

Lemma skill_gap_analysis_df_fmap items :
  skill_gap_analysis_df items = uncurry gap_row_of <$> items.
Proof. unfold skill_gap_analysis_df. by rewrite gap_rows_app. Qed.

Lemma skill_gap_analysis_df_lookup items i skill levels :
  items !! i = Some (skill, levels) →
  skill_gap_analysis_df items !! i = Some (gap_row_of skill levels).
Proof.
  intros Hi. rewrite skill_gap_analysis_df_fmap, list_lookup_fmap, Hi. done.
Qed.

End GapCalculator.

(** C1.  The gap calculator returns one row per key of the input mapping, in
    the mapping's iteration order (the [i]-th row carries the [i]-th key),
    and a skill with levels [{current: c, target: t}] gets the row with
    [gap = t - c], an exact integer difference that is negative when
    [t < c]. *)
Theorem gap_calculator_rows (skills_dict : list (str * gmap str Z)) :
  length (skill_gap_analysis_df skills_dict) = length skills_dict
  ∧ Skill <$> skill_gap_analysis_df skills_dict = fst <$> skills_dict
  ∧ ∀ (i : nat) (skill : str) (levels : gmap str Z) (c t : Z),
      skills_dict !! i = Some (skill, levels) →
      levels !! Str.lit "current" = Some c →
      levels !! Str.lit "target" = Some t →
      skill_gap_analysis_df skills_dict !! i
      = Some {| Skill := skill; Current_Level := c; Target_Level := t;
                Gap := (t - c)%Z |}.
Proof.
  split_and!.
  - by rewrite skill_gap_analysis_df_fmap, length_fmap.
  - rewrite skill_gap_analysis_df_fmap, <- list_fmap_compose.
    apply list_fmap_ext. by intros _ [skill levels] _.
  - intros i skill levels c t Hi Hc Ht.
    rewrite (skill_gap_analysis_df_lookup _ _ _ _ Hi).
    unfold gap_row_of. by rewrite Hc, Ht.
Qed.

(** A dict of two skills, the second with a target below its current
    level: the rows keep the order and the second gap is [-2]. *)
Lemma gap_calculator_rows_witness :
  skill_gap_analysis_df
    [ (Str.lit "SQL", {[ Str.lit "current" := 1%Z; Str.lit "target" := 4%Z ]});
      (Str.lit "CAD", {[ Str.lit "current" := 5%Z; Str.lit "target" := 3%Z ]}) ]
    !! 1%nat
  = Some {| Skill := Str.lit "CAD"; Current_Level := 5; Target_Level := 3;
            Gap := -2 |}.
Proof.
  apply (proj2 (proj2 (gap_calculator_rows _)) 1%nat (Str.lit "CAD")
           {[ Str.lit "current" := 5%Z; Str.lit "target" := 3%Z ]} 5%Z 3%Z);
    reflexivity.
Defined.

(** C10.  The calculator is total on level records with missing keys: a
    level that is present is taken as stored and a missing one reads as 0,
    so the row of a skill holds for each level its stored value or 0, and
    their difference as gap.  With only the target [t] stored the row is
    [(0, t, t)], with only the current level [c] it is [(c, 0, -c)], and a
    skill with an empty levels mapping gets
    [{current: 0, target: 0, gap: 0}]. *)
Theorem gap_calculator_missing_keys (skills_dict : list (str * gmap str Z))
    (i : nat) (skill : str) (levels : gmap str Z) :
  skills_dict !! i = Some (skill, levels) →
  skill_gap_analysis_df skills_dict !! i
  = Some {| Skill := skill;
            Current_Level := default 0%Z (levels !! Str.lit "current");
            Target_Level := default 0%Z (levels !! Str.lit "target");
            Gap := (default 0 (levels !! Str.lit "target")
                    - default 0 (levels !! Str.lit "current"))%Z |}
  ∧ (∀ t, levels !! Str.lit "current" = None →
          levels !! Str.lit "target" = Some t →
          skill_gap_analysis_df skills_dict !! i
          = Some {| Skill := skill; Current_Level := 0; Target_Level := t;
                    Gap := t |})
  ∧ (∀ c, levels !! Str.lit "current" = Some c →
          levels !! Str.lit "target" = None →
          skill_gap_analysis_df skills_dict !! i
          = Some {| Skill := skill; Current_Level := c; Target_Level := 0;
                    Gap := (- c)%Z |})
  ∧ (levels !! Str.lit "current" = None →
     levels !! Str.lit "target" = None →
     skill_gap_analysis_df skills_dict !! i
     = Some {| Skill := skill; Current_Level := 0; Target_Level := 0;
               Gap := 0 |})
  ∧ (levels = ∅ →
     skill_gap_analysis_df skills_dict !! i
     = Some {| Skill := skill; Current_Level := 0; Target_Level := 0;
               Gap := 0 |}).
Proof.
  intros Hi. rewrite (skill_gap_analysis_df_lookup _ _ _ _ Hi).
  unfold gap_row_of. split_and!.
  - done.
  - intros t -> ->. cbn. do 2 f_equal. lia.
  - intros c -> ->. done.
  - by intros -> ->.
  - intros ->. by rewrite !lookup_empty.
Qed.

(** Only the target is stored: the current level reads as 0 and the
    stored target is kept. *)
Lemma gap_calculator_missing_keys_witness :
  skill_gap_analysis_df
    [ (Str.lit "SQL", {[ Str.lit "target" := 4%Z ]}); (Str.lit "CAD", ∅) ]
    !! 0%nat
  = Some {| Skill := Str.lit "SQL"; Current_Level := 0; Target_Level := 4;
            Gap := 4 |}.
Proof.
  apply (proj1 (proj2 (gap_calculator_missing_keys
                  [ (Str.lit "SQL", {[ Str.lit "target" := 4%Z ]});
                    (Str.lit "CAD", ∅) ] 0%nat (Str.lit "SQL")
                  {[ Str.lit "target" := 4%Z ]} eq_refl)) 4%Z);
    vm_compute; reflexivity.
Defined.

(** ** Skill aggregator *)

Section SkillAggregator.

Implicit Types (w : world) (p : profile) (s : str).

Lemma elem_of_extend_industry_skills s (acc interests : list str) :
  s ∈ extend_industry_skills acc interests
  ↔ s ∈ acc
    ∨ ∃ ind, ind ∈ interests ∧ s ∈ default [] (skills_by_industry !! ind).
Proof.
  revert acc. induction interests as [|ind rest IH]; intros acc; cbn.
  - split; [by left|]. intros [?|(ind & Hin & _)]; [done|].
    by apply elem_of_nil in Hin.
  - rewrite IH, elem_of_app. split.
    + intros [[?|?]|(ind' & ? & ?)]; [by left| |].
      * right. exists ind. split; [left|done].
      * right. exists ind'. split; [by right|done].
    + intros [?|(ind' & Hin & ?)]; [by left; left|].
      apply elem_of_cons in Hin as [->|?]; [by left; right|].
      right. by exists ind'.
Qed.

Lemma elem_of_industry_skills s p :
  s ∈ industry_skills p
  ↔ ∃ ind, ind ∈ default [] (career_interests p)
           ∧ s ∈ default [] (skills_by_industry !! ind).
Proof.
  unfold industry_skills. rewrite elem_of_extend_industry_skills.
  split; [|by right]. intros [Hnil|?]; [|done]. by apply elem_of_nil in Hnil.
Qed.

Lemma elem_of_list_of_set s (l : list str) : s ∈ list_of_set l ↔ s ∈ l.
Proof. unfold list_of_set. by rewrite elem_of_elements, elem_of_list_to_set. Qed.

Lemma NoDup_list_of_set (l : list str) : NoDup (list_of_set l).
Proof. unfold list_of_set. apply NoDup_elements. Qed.

Lemma get_skills_for_user_Ok w p ai :
  fetch_dynamic_skills w p = Ok ai →
  get_skills_for_user w p
  = Ok (list_of_set (prof_skills p ++ industry_skills p ++ ai)).
Proof. unfold get_skills_for_user. by intros ->. Qed.

Lemma fetch_dynamic_skills_Raise w p k e :
  get_openai_client w = Ok k →
  chat_completions_create w k (SkillPrompt p) = Raise e →
  fetch_dynamic_skills w p = Raise e.
Proof.
  intros Hk He. unfold fetch_dynamic_skills. rewrite Hk. cbn. by rewrite He.
Qed.

Lemma static_list_ana :
  prof_skills ana ++ industry_skills ana
  = Str.lit <$> [ "Python"; "SQL"; "Data Visualization"; "Statistics";
                  "Cloud Computing"; "Machine Learning"; "Python" ]%string.
Proof. vm_compute. reflexivity. Qed.

Lemma static_skills_ana :
  list_of_set (prof_skills ana ++ industry_skills ana)
  ≡ₚ Str.lit <$> [ "Python"; "SQL"; "Data Visualization"; "Statistics";
                   "Cloud Computing"; "Machine Learning" ]%string.
Proof.
  apply NoDup_Permutation.
  - apply NoDup_list_of_set.
  - apply (bool_decide_unpack _). vm_compute. reflexivity.
  - intros s. rewrite elem_of_list_of_set, static_list_ana.
    cbn [fmap list_fmap]. rewrite !elem_of_cons. tauto.
Qed.

End SkillAggregator.

(** C2.  When the suggestion call returns, the aggregator's output has no
    repetition and holds exactly the strings of the three sources: the
    profession table's entry for the profile's profession (nothing when the
    profession is not in the table), the industry table's entries for the
    profile's industries, and the AI-suggested skills; membership is equality
    of code-point sequences, so it is case-sensitive.  For the profile
    "Data Analyst" with industries ["IT"] the static part (profession and
    industry skills) deduplicates to the six skills Python, SQL, Data
    Visualization, Statistics, Cloud Computing and Machine Learning, Python
    once. *)
Theorem skill_aggregator_union :
  (∀ (w : world) (p : profile) (ai : list str),
     fetch_dynamic_skills w p = Ok ai →
     ∃ out, get_skills_for_user w p = Ok out
       ∧ NoDup out
       ∧ ∀ s : str,
           s ∈ out
           ↔ s ∈ default [] (skills_by_profession !! default [] (profession p))
             ∨ (∃ ind, ind ∈ default [] (career_interests p)
                       ∧ s ∈ default [] (skills_by_industry !! ind))
             ∨ s ∈ ai)
  ∧ (∀ p : profile,
       skills_by_profession !! default [] (profession p) = None →
       prof_skills p = [])
  ∧ prof_skills ana ++ industry_skills ana
    = Str.lit <$> [ "Python"; "SQL"; "Data Visualization"; "Statistics";
                    "Cloud Computing"; "Machine Learning"; "Python" ]%string
  ∧ list_of_set (prof_skills ana ++ industry_skills ana)
    ≡ₚ Str.lit <$> [ "Python"; "SQL"; "Data Visualization"; "Statistics";
                     "Cloud Computing"; "Machine Learning" ]%string
  ∧ length (list_of_set (prof_skills ana ++ industry_skills ana)) = 6%nat.
Proof.
  split_and!.
  - intros w p ai Hai. eexists. split; [by apply get_skills_for_user_Ok|].
    split; [apply NoDup_list_of_set|]. intros s.
    rewrite elem_of_list_of_set, !elem_of_app, elem_of_industry_skills. done.
  - intros p Hnone. unfold prof_skills. by rewrite Hnone.
  - apply static_list_ana.
  - apply static_skills_ana.
  - rewrite static_skills_ana. reflexivity.
Qed.

(** The service answers with an empty completion: the output for the
    example profile is the six static skills. *)
Lemma skill_aggregator_union_witness :
  ∃ out,
    get_skills_for_user (sample_world (Ok []) (Raise StopException)) ana = Ok out
    ∧ NoDup out
    ∧ Str.lit "Python" ∈ out.
Proof.
  destruct (proj1 skill_aggregator_union
              (sample_world (Ok []) (Raise StopException)) ana [])
    as (out & Hout & Hnodup & Hmem); [vm_compute; reflexivity|].
  exists out. split; [exact Hout|]. split; [exact Hnodup|].
  apply Hmem. left. vm_compute. left.
Defined.

(** ** Command parser *)

Section Regex.

Import Re.

Lemma star_loop_Some a k s m :
  star_loop a k s = Some m → ∃ rest, k rest = Some m.
Proof.
  induction s as [|c s' IH]; cbn; [by eauto|].
  destruct (atom_matches a c); [|by eauto].
  destruct (star_loop a k s') as [res|]; [|by eauto].
  intros [= <-]. by apply IH.
Qed.

Lemma group_loop_Some a k s taken m :
  group_loop a k s taken = Some m → ∃ rest taken', k rest taken' = Some m.
Proof.
  revert taken. induction s as [|c s' IH]; intros taken; cbn; [by eauto|].
  destruct (atom_matches a c); [|by eauto].
  destruct (group_loop a k s' (taken ++ [c])) as [res|] eqn:E; [|by eauto].
  intros [= <-]. by apply (IH _ E).
Qed.

(** Group 1 takes part in every match of a pattern that contains it. *)
Lemma match_here_group r s g m :
  is_Some g ∨ existsb is_group r = true →
  match_here r s g = Some m → is_Some m.
Proof.
  revert s g. induction r as [|n r' IH]; intros s g Hg; cbn.
  - intros [= <-]. by destruct Hg.
  - destruct n as [a|a|a]; cbn in Hg.
    + destruct s as [|c s']; [done|]. destruct (atom_matches a c); [|done].
      by apply IH.
    + intros (rest & Hrest)%star_loop_Some. by apply IH in Hrest.
    + intros (rest & taken & Hrest)%group_loop_Some.
      apply IH in Hrest; [done|]. by left.
Qed.

Lemma search_group r s m :
  existsb is_group r = true → search r s = Some m → is_Some m.
Proof.
  intros Hr. induction s as [|c s' IH]; cbn.
  - destruct (match_here r [] None) as [g|] eqn:E; [|done].
    intros [= <-]. eapply match_here_group; [|exact E]. by right.
  - destruct (match_here r (c :: s') None) as [g|] eqn:E; [|done].
    intros [= <-]. eapply match_here_group; [|exact E]. by right.
Qed.

(** So [match.group(1)] is a string whenever a command pattern matches. *)
Lemma search_directive_group literal s m :
  search (directive literal) s = Some m → ∃ g, m = Some g.
Proof.
  intros H. apply search_group in H; [by destruct H as [g ->]; eauto|].
  unfold directive. rewrite existsb_app. cbn. by rewrite orb_true_r.
Qed.

End Regex.

Section CommandParser.

Implicit Types (user_input key : str) (s : session) (m : option str).

Lemma parse_timeline user_input s m :
  Re.search (Re.directive (Str.lit "timeline:")) user_input = Some m →
  parse_special_commands user_input s
  = directive_matched (Str.lit "timeline") m s.
Proof.
  intros H. unfold parse_special_commands, command_patterns.
  cbn [parse_loop]. by rewrite H.
Qed.

Lemma parse_prep_level user_input s m :
  Re.search (Re.directive (Str.lit "timeline:")) user_input = None →
  Re.search (Re.directive (Str.lit "prep level:")) user_input = Some m →
  parse_special_commands user_input s
  = directive_matched (Str.lit "prep_level") m s.
Proof.
  intros H1 H2. unfold parse_special_commands, command_patterns.
  cbn [parse_loop]. by rewrite H1, H2.
Qed.

Lemma parse_no_directive user_input s :
  Re.search (Re.directive (Str.lit "timeline:")) user_input = None →
  Re.search (Re.directive (Str.lit "prep level:")) user_input = None →
  parse_special_commands user_input s = (None, s).
Proof.
  intros H1 H2. unfold parse_special_commands, command_patterns.
  cbn [parse_loop]. by rewrite H1, H2.
Qed.

Lemma directive_matched_missing key m s :
  Str.strip (default [] m) = [] →
  directive_matched key m s
  = (Some (humanize key ++ Str.lit " value missing. Please provide a value."),
     s).
Proof. unfold directive_matched. by intros ->. Qed.

Lemma directive_matched_recorded key m s :
  Str.strip (default [] m) ≠ [] →
  directive_matched key m s
  = (Some (humanize key ++ Str.lit " recorded: " ++ Str.strip (default [] m)
           ++ Str.lit "."),
     set_context (<[key := Str.strip (default [] m)]> (context s)) s).
Proof.
  unfold directive_matched. by destruct (Str.strip (default [] m)).
Qed.

(** The parser reads nothing of the session: its return value depends on
    the input alone. *)
Lemma directive_matched_fst key m s s' :
  (directive_matched key m s).1 = (directive_matched key m s').1.
Proof.
  unfold directive_matched. by destruct (negb (Str.truthy _)).
Qed.

Lemma parse_loop_fst patterns user_input s s' :
  (parse_loop patterns user_input s).1 = (parse_loop patterns user_input s').1.
Proof.
  induction patterns as [|[key pattern] rest IH]; cbn; [done|].
  destruct (Re.search pattern user_input); [|done].
  apply directive_matched_fst.
Qed.

Lemma parse_fst user_input s s' :
  (parse_special_commands user_input s).1
  = (parse_special_commands user_input s').1.
Proof. apply parse_loop_fst. Qed.

(** It writes to [context] only, and to one key at most. *)
Lemma directive_matched_session key m s :
  ∃ ctx, (directive_matched key m s).2 = set_context ctx s
         ∧ (ctx = context s ∨ ∃ value, ctx = <[key := value]> (context s)).
Proof.
  unfold directive_matched. destruct (negb (Str.truthy _)); cbn.
  - exists (context s). split; [by destruct s|by left].
  - eexists. split; [done|]. right. by eexists.
Qed.

Lemma parse_loop_session patterns user_input s :
  ∃ ctx, (parse_loop patterns user_input s).2 = set_context ctx s
         ∧ (ctx = context s
            ∨ ∃ key value, key ∈ patterns.*1
                           ∧ ctx = <[key := value]> (context s)).
Proof.
  induction patterns as [|[key pattern] rest IH]; cbn.
  - exists (context s). split; [by destruct s|by left].
  - destruct (Re.search pattern user_input) as [m|].
    + destruct (directive_matched_session key m s) as (ctx & -> & [->|[v ->]]);
        eexists; (split; [done|]); [by left|].
      right. exists key, v. split; [left|done].
    + destruct IH as (ctx & -> & [->|(k & v & Hk & ->)]);
        eexists; (split; [done|]); [by left|].
      right. exists k, v. split; [by right|done].
Qed.

Lemma parse_chat_history user_input s :
  chat_history (parse_special_commands user_input s).2 = chat_history s.
Proof.
  destruct (parse_loop_session command_patterns user_input s) as (ctx & H & _).
  unfold parse_special_commands. by rewrite H.
Qed.

Lemma parse_user_profile user_input s :
  user_profile (parse_special_commands user_input s).2 = user_profile s.
Proof.
  destruct (parse_loop_session command_patterns user_input s) as (ctx & H & _).
  unfold parse_special_commands. by rewrite H.
Qed.

End CommandParser.

(** C3.  On "timeline: June 2026" the parser stores "June 2026" under
    [context["timeline"]] and returns "Timeline recorded: June 2026."; on
    "Prep Level: advanced" (the pattern ignores case) it stores "advanced"
    under [context["prep_level"]]; on an input that neither pattern matches
    it returns [None], the no-directive value, and the session is
    unchanged. *)
Theorem command_parser_examples :
  (∀ s : session,
     parse_special_commands (Str.lit "timeline: June 2026") s
     = (Some (Str.lit "Timeline recorded: June 2026."),
        set_context (<[Str.lit "timeline" := Str.lit "June 2026"]> (context s)) s)
     ∧ context (parse_special_commands (Str.lit "timeline: June 2026") s).2
         !! Str.lit "timeline" = Some (Str.lit "June 2026"))
  ∧ (∀ s : session,
       parse_special_commands (Str.lit "Prep Level: advanced") s
       = (Some (Str.lit "Prep level recorded: advanced."),
          set_context (<[Str.lit "prep_level" := Str.lit "advanced"]> (context s)) s)
       ∧ context (parse_special_commands (Str.lit "Prep Level: advanced") s).2
           !! Str.lit "prep_level" = Some (Str.lit "advanced"))
  ∧ (∀ (user_input : str) (s : session),
       Re.search (Re.directive (Str.lit "timeline:")) user_input = None →
       Re.search (Re.directive (Str.lit "prep level:")) user_input = None →
       parse_special_commands user_input s = (None, s)).
Proof.
  assert (∀ s : session,
     parse_special_commands (Str.lit "timeline: June 2026") s
     = (Some (Str.lit "Timeline recorded: June 2026."),
        set_context (<[Str.lit "timeline" := Str.lit "June 2026"]> (context s)) s))
    as Htimeline.
  { intros s.
    rewrite (parse_timeline _ _ (Some (Str.lit "June 2026")))
      by (vm_compute; reflexivity).
    rewrite directive_matched_recorded by (vm_compute; discriminate).
    replace (Str.strip (default [] (Some (Str.lit "June 2026"))))
      with (Str.lit "June 2026") by (vm_compute; reflexivity).
    do 2 f_equal. }
  assert (∀ s : session,
     parse_special_commands (Str.lit "Prep Level: advanced") s
     = (Some (Str.lit "Prep level recorded: advanced."),
        set_context (<[Str.lit "prep_level" := Str.lit "advanced"]> (context s)) s))
    as Hprep.
  { intros s.
    rewrite (parse_prep_level _ _ (Some (Str.lit "advanced")))
      by (vm_compute; reflexivity).
    rewrite directive_matched_recorded by (vm_compute; discriminate).
    replace (Str.strip (default [] (Some (Str.lit "advanced"))))
      with (Str.lit "advanced") by (vm_compute; reflexivity).
    do 2 f_equal. }
  split_and!.
  - intros s. split; [apply Htimeline|].
    rewrite Htimeline. cbn. apply lookup_insert_eq.
  - intros s. split; [apply Hprep|].
    rewrite Hprep. cbn. apply lookup_insert_eq.
  - apply parse_no_directive.
Qed.

(** A plain question holds no directive. *)
Lemma command_parser_examples_witness :
  parse_special_commands (Str.lit "What should I learn next?") fresh_session
  = (None, fresh_session).
Proof.
  apply (proj2 (proj2 command_parser_examples)); vm_compute; reflexivity.
Defined.

(** C4.  Let a directive match, [key] being the first key in checking
    order whose pattern matches and [g] its captured group.  When [g] is
    empty or whitespace only (its trimmed value is empty) the parser
    returns the value-missing message and the session, its context
    included, is unchanged; otherwise it stores the trimmed value under
    [key] and returns the confirmation with the humanized key and that
    value. *)
Theorem directive_value_handling (user_input : str) (s : session)
    (key g : str) :
  (Re.search (Re.directive (Str.lit "timeline:")) user_input = Some (Some g)
   ∧ key = Str.lit "timeline")
  ∨ (Re.search (Re.directive (Str.lit "timeline:")) user_input = None
     ∧ Re.search (Re.directive (Str.lit "prep level:")) user_input
       = Some (Some g)
     ∧ key = Str.lit "prep_level") →
  (Str.strip g = [] →
   parse_special_commands user_input s
   = (Some (humanize key ++ Str.lit " value missing. Please provide a value."),
      s))
  ∧ (Str.strip g ≠ [] →
     parse_special_commands user_input s
     = (Some (humanize key ++ Str.lit " recorded: " ++ Str.strip g
              ++ Str.lit "."),
        set_context (<[key := Str.strip g]> (context s)) s)
     ∧ context (parse_special_commands user_input s).2 !! key
       = Some (Str.strip g)).
Proof.
  intros Hmatch.
  assert (parse_special_commands user_input s
          = directive_matched key (Some g) s) as Hparse.
  { destruct Hmatch as [[H ->]|(H1 & H2 & ->)];
      [by apply parse_timeline|by apply parse_prep_level]. }
  rewrite Hparse. split.
  - intros Hempty. by apply directive_matched_missing.
  - intros Hvalue. rewrite directive_matched_recorded by done.
    split; [done|]. cbn. apply lookup_insert_eq.
Qed.

(** "timeline:" followed by blanks only: the message, and a context in
    which "timeline" keeps its old value. *)
Lemma directive_value_handling_witness :
  parse_special_commands (Str.lit "timeline:   ")
    (set_context {[ Str.lit "timeline" := Str.lit "May" ]} fresh_session)
  = (Some (Str.lit "Timeline value missing. Please provide a value."),
     set_context {[ Str.lit "timeline" := Str.lit "May" ]} fresh_session).
Proof.
  apply (proj1 (directive_value_handling (Str.lit "timeline:   ")
                  (set_context {[ Str.lit "timeline" := Str.lit "May" ]}
                     fresh_session)
                  (Str.lit "timeline") [] ltac:(left; split; vm_compute; reflexivity))).
  vm_compute; reflexivity.
Defined.

(** C5.  The keys are checked in the order "timeline", "prep_level" and the
    first match ends the call: when the timeline pattern matches, the result
    is that of the timeline directive whatever else the input holds, and the
    entry of "prep_level" is not written; no call changes more than one key
    of the context, and only one of the two command keys. *)
Theorem first_directive_wins (user_input : str) (s : session) :
  command_patterns.*1 = [Str.lit "timeline"; Str.lit "prep_level"]
  ∧ (∀ m : option str,
       Re.search (Re.directive (Str.lit "timeline:")) user_input = Some m →
       parse_special_commands user_input s
       = directive_matched (Str.lit "timeline") m s
       ∧ (∃ rest, (parse_special_commands user_input s).1
                  = Some (Str.lit "Timeline" ++ rest))
       ∧ context (parse_special_commands user_input s).2 !! Str.lit "prep_level"
         = context s !! Str.lit "prep_level")
  ∧ (∀ k1 k2 : str,
       context (parse_special_commands user_input s).2 !! k1 ≠ context s !! k1 →
       context (parse_special_commands user_input s).2 !! k2 ≠ context s !! k2 →
       k1 = k2 ∧ (k1 = Str.lit "timeline" ∨ k1 = Str.lit "prep_level"))
  ∧ parse_special_commands (Str.lit "prep level: high timeline: May")
      fresh_session
    = (Some (Str.lit "Timeline recorded: May."),
       set_context {[ Str.lit "timeline" := Str.lit "May" ]} fresh_session).
Proof.
  split_and!.
  - reflexivity.
  - intros m Hm. rewrite (parse_timeline _ _ _ Hm). split_and!; [done| |].
    + unfold directive_matched. replace (humanize (Str.lit "timeline"))
        with (Str.lit "Timeline") by (vm_compute; reflexivity).
      destruct (negb (Str.truthy _)); cbn; eauto.
    + destruct (directive_matched_session (Str.lit "timeline") m s)
        as (ctx & -> & [->|[v ->]]); cbn; [done|].
      by apply lookup_insert_ne.
  - intros k1 k2 H1 H2.
    destruct (parse_loop_session command_patterns user_input s)
      as (ctx & Hs & [->|(key & v & Hkey & ->)]);
      unfold parse_special_commands in *; rewrite Hs in H1, H2; cbn in H1, H2;
      [done|].
    destruct (decide (key = k1)) as [<-|Hne1];
      [|by rewrite lookup_insert_ne in H1].
    destruct (decide (key = k2)) as [<-|Hne2];
      [|by rewrite lookup_insert_ne in H2].
    split; [done|]. cbn in Hkey. rewrite !elem_of_cons in Hkey.
    destruct Hkey as [?|[?|Hnil]]; [by left|by right|].
    by apply elem_of_nil in Hnil.
  - rewrite (parse_timeline _ _ (Some (Str.lit "May")))
      by (vm_compute; reflexivity).
    rewrite directive_matched_recorded by (vm_compute; discriminate).
    replace (Str.strip (default [] (Some (Str.lit "May"))))
      with (Str.lit "May") by (vm_compute; reflexivity).
    do 2 f_equal.
Qed.

(** Both directives in one message, "prep level:" first: the timeline
    directive is the one honoured and "prep_level" stays unset. *)
Lemma first_directive_wins_witness :
  context
    (parse_special_commands (Str.lit "prep level: high timeline: May")
       fresh_session).2 !! Str.lit "prep_level" = None.
Proof.
  apply (proj2 (proj2 (proj1 (proj2
           (first_directive_wins (Str.lit "prep level: high timeline: May")
              fresh_session)) (Some (Str.lit "May")) ltac:(vm_compute; reflexivity)))).
Defined.

(** ** News fetcher *)

Section NewsFetcher.

Implicit Types (w : world) (industry url : str).

Lemma comprehension_articles (articles : list json)
    (pairs : list (json * json)) :
  Forall2 article_fields articles pairs →
  comprehension
    (λ a, title ← Json.getitem a (Str.lit "title");
          url ← Json.getitem a (Str.lit "url");
          mret (title, url))
    articles = Ok pairs.
Proof.
  induction 1 as [|a [t u] articles pairs (items & -> & Ht & Hu) _ IH]; [done|].
  cbn in *. rewrite Ht. cbn. rewrite Hu. cbn. by rewrite IH.
Qed.

Lemma fetch_industry_news_total w industry :
  ∃ items, fetch_industry_news w industry = Ok items.
Proof.
  unfold fetch_industry_news, try_except.
  destruct (fetch_industry_news_try _ _); eauto.
Qed.

Lemma fetch_industry_news_error w industry e :
  fetch_industry_news_try w (news_url w industry) = Raise e →
  fetch_industry_news w industry = Ok [].
Proof. unfold fetch_industry_news. by intros ->. Qed.

End NewsFetcher.

(** C6.  The news fetcher always returns a list and never raises.  Whatever
    is raised inside its [try] block gives the empty list: a transport
    error of [requests.get], an error status, a body that is not JSON, an
    article without a title.  On a successful response whose JSON object
    holds a list of articles with the two keys, the result is the list of
    their (title, url) pairs, in order. *)
Theorem news_fetch_never_raises (w : world) (industry : str) :
  (∃ items, fetch_industry_news w industry = Ok items)
  ∧ (∀ e, fetch_industry_news_try w (news_url w industry) = Raise e →
          fetch_industry_news w industry = Ok [])
  ∧ (∀ e, requests_get w (news_url w industry) = Raise e →
          fetch_industry_news w industry = Ok [])
  ∧ (∀ r, requests_get w (news_url w industry) = Ok r →
          (400 ≤ status_code r < 600)%Z ∨ body r = None →
          fetch_industry_news w industry = Ok [])
  ∧ (∀ r data articles pairs,
       requests_get w (news_url w industry) = Ok r →
       ¬ (400 ≤ status_code r < 600)%Z →
       body r = Some (JDict data) →
       Json.assoc (Str.lit "articles") data = Some (JList articles) →
       Forall2 article_fields articles pairs →
       fetch_industry_news w industry = Ok pairs).
Proof.
  split_and!.
  - apply fetch_industry_news_total.
  - apply fetch_industry_news_error.
  - intros e He. unfold fetch_industry_news, fetch_industry_news_try.
    by rewrite He.
  - intros r Hr Hbad. unfold fetch_industry_news, fetch_industry_news_try.
    rewrite Hr. cbn. unfold raise_for_status, response_json.
    case_bool_decide; [done|]. destruct Hbad as [?|Hbody]; [done|].
    cbn. by rewrite Hbody.
  - intros r data articles pairs Hr Hstatus Hbody Harticles Hpairs.
    unfold fetch_industry_news, fetch_industry_news_try.
    rewrite Hr. cbn. unfold raise_for_status, response_json.
    rewrite bool_decide_eq_false_2 by done. cbn. rewrite Hbody. cbn.
    rewrite Harticles. cbn. by rewrite (comprehension_articles _ _ Hpairs).
Qed.

(** A connection failure gives the empty list. *)
Lemma news_fetch_never_raises_witness :
  fetch_industry_news
    (sample_world (Ok []) (Raise (Exception "ConnectionError" (Str.lit "unreachable"))))
    (Str.lit "Finance")
  = Ok [].
Proof.
  apply (proj1 (proj2 (proj2 (news_fetch_never_raises _ _)))
           (Exception "ConnectionError" (Str.lit "unreachable"))).
  reflexivity.
Defined.

(** ** Mentor chat *)

Section MentorChat.

Implicit Types (w : world) (s : session) (user_input : str).

Lemma parse_loop_None patterns user_input s :
  (parse_loop patterns user_input s).1 = None →
  parse_loop patterns user_input s = (None, s).
Proof.
  induction patterns as [|[key pattern] rest IH]; cbn; [done|].
  destruct (Re.search pattern user_input) as [m|]; [|done].
  unfold directive_matched. by destruct (negb (Str.truthy _)).
Qed.

Lemma parse_None user_input s s' :
  (parse_special_commands user_input s).1 = None →
  parse_special_commands user_input s' = (None, s').
Proof.
  unfold parse_special_commands. intros H. apply parse_loop_None.
  by rewrite (parse_loop_fst _ _ s' s).
Qed.

Lemma truthy_opt_Some user_input :
  user_input ≠ [] → Str.truthy_opt (Some user_input) = true.
Proof. by destruct user_input. Qed.


(** A submitted question whose run completes adds exactly two turns. *)
Lemma show_mentor_chat_two_turns w user_input s s' :
  user_input ≠ [] →
  show_mentor_chat w (Some user_input) s = (Ok (), s') →
  ∃ reply,
    chat_history s'
    = chat_history s
      ++ [ {| role := Str.lit "user"; content := user_input |};
           {| role := Str.lit "assistant"; content := reply |} ].
Proof.
  intros Hinput. unfold show_mentor_chat.
  rewrite truthy_opt_Some by done. cbn [from_option id].
  pose proof (parse_chat_history user_input
                (chat_append (Str.lit "user") user_input s)) as H.
  destruct (parse_special_commands _ _) as [response s2]. cbn in H.
  destruct response as [r|]; cbn.
  - intros [= <-]. cbn. exists r. by rewrite H, <- app_assoc.
  - destruct (try_except_Exception _ _) as [r|e]; [|done].
    intros [= <-]. cbn. exists r. by rewrite H, <- app_assoc.
Qed.


End MentorChat.

(** C7.  A submitted question that holds no directive, in a world where the
    client is built and the completion call raises an [Exception]: the run
    of the chat page completes normally, the exception is turned into the
    text "Sorry, there was an error: " followed by its detail, and the
    history grows by exactly two turns, the user's question and that text
    as the assistant's turn. *)
Theorem chat_service_error_turn (w : world) (user_input : str) (s : session)
    (k : str) (cls : string) (detail : str) :
  user_input ≠ [] →
  (parse_special_commands user_input s).1 = None →
  get_openai_client w = Ok k →
  chat_completions_create w k
    (MentorPrompt (user_profile s) (context s) user_input)
  = Raise (Exception cls detail) →
  ∃ s', show_mentor_chat w (Some user_input) s = (Ok (), s')
    ∧ chat_history s'
      = chat_history s
        ++ [ {| role := Str.lit "user"; content := user_input |};
             {| role := Str.lit "assistant";
                content := Str.lit "Sorry, there was an error: " ++ detail |} ]
    ∧ length (chat_history s') = (length (chat_history s) + 2)%nat.
Proof.
  intros Hinput Hnone Hclient Hraise. unfold show_mentor_chat.
  rewrite truthy_opt_Some by done. cbn [from_option id].
  rewrite (parse_None _ s _ Hnone).
  unfold get_ai_mentor_response. rewrite Hclient. cbn. rewrite Hraise. cbn.
  eexists. split; [done|]. cbn. split.
  - by rewrite <- app_assoc.
  - rewrite !length_app. cbn. lia.
Qed.

(** A rate-limited service during the first question of a session. *)
Lemma chat_service_error_turn_witness :
  ∃ s',
    show_mentor_chat
      (sample_world (Raise (Exception "RateLimitError" (Str.lit "429")))
                    (Raise StopException))
      (Some (Str.lit "How do I become a data engineer?")) fresh_session
    = (Ok (), s')
    ∧ chat_history s'
      = [ {| role := Str.lit "user";
             content := Str.lit "How do I become a data engineer?" |};
          {| role := Str.lit "assistant";
             content := Str.lit "Sorry, there was an error: 429" |} ]
    ∧ length (chat_history s') = 2%nat.
Proof.
  apply (chat_service_error_turn
           (sample_world (Raise (Exception "RateLimitError" (Str.lit "429")))
                         (Raise StopException))
           (Str.lit "How do I become a data engineer?") fresh_session
           (Str.lit "sk-test") "RateLimitError" (Str.lit "429")).
  - discriminate.
  - vm_compute; reflexivity.
  - vm_compute; reflexivity.
  - reflexivity.
Defined.

(** C8.  The skill aggregator has no guard around the completion call: when
    the call raises [e], [fetch_dynamic_skills] raises [e] and so does
    [get_skills_for_user], whatever the static tables hold for the profile.
    The chat page, on the same failure of the same service, completes
    normally. *)
Theorem skill_suggestion_failure_propagates (w : world) (p : profile)
    (k : str) (e : exn) :
  get_openai_client w = Ok k →
  chat_completions_create w k (SkillPrompt p) = Raise e →
  fetch_dynamic_skills w p = Raise e
  ∧ get_skills_for_user w p = Raise e
  ∧ ∀ (user_input : str) (s : session),
      user_input ≠ [] →
      is_Exception e = true →
      get_ai_mentor_response w user_input s = Raise e →
      (show_mentor_chat w (Some user_input) s).1 = Ok ().
Proof.
  intros Hclient Hraise.
  pose proof (fetch_dynamic_skills_Raise _ _ _ _ Hclient Hraise) as Hfetch.
  split_and!; [done| |].
  - unfold get_skills_for_user. by rewrite Hfetch.
  - intros user_input s Hinput He Hmentor. unfold show_mentor_chat.
    rewrite truthy_opt_Some by done. cbn [from_option id].
    destruct (parse_special_commands user_input s).1 as [r|] eqn:Hfst.
    + pose proof (parse_fst user_input
                    (chat_append (Str.lit "user") user_input s) s) as H.
      rewrite Hfst in H. revert H.
      destruct (parse_special_commands user_input (chat_append _ _ s))
        as [response s2].
      intros H. cbn [fst] in H. by rewrite H.
    + rewrite (parse_None _ s _ Hfst).
      change (get_ai_mentor_response w user_input (chat_append _ _ s))
        with (get_ai_mentor_response w user_input s).
      rewrite Hmentor. cbn. by rewrite He.
Qed.

(** An authentication failure while the skills of the example profile are
    gathered reaches the caller of the aggregator. *)
Lemma skill_suggestion_failure_propagates_witness :
  get_skills_for_user
    (sample_world (Raise (Exception "AuthenticationError" (Str.lit "401")))
                  (Raise StopException)) ana
  = Raise (Exception "AuthenticationError" (Str.lit "401")).
Proof.
  apply (skill_suggestion_failure_propagates
           (sample_world (Raise (Exception "AuthenticationError" (Str.lit "401")))
                         (Raise StopException))
           ana (Str.lit "sk-test")
           (Exception "AuthenticationError" (Str.lit "401"))).
  - vm_compute; reflexivity.
  - reflexivity.
Defined.



(** * Further properties *)

(** ** Strings *)

Section Strings.

Implicit Types (p : N → bool) (s : str).

Lemma rev_reverse_eq {A} (l : list A) : rev l = reverse l.
Proof. unfold reverse. apply rev_alt. Qed.

Lemma lstrip_by_split p s :
  ∃ pre, s = pre ++ Str.lstrip_by p s ∧ Forall (λ c, p c = true) pre.
Proof.
  induction s as [|c s' (pre & Hs & Hpre)]; cbn; [by exists []|].
  destruct (p c) eqn:Hc; [|by exists []].
  exists (c :: pre). split; [by rewrite Hs at 1|by constructor].
Qed.

Lemma lstrip_by_head p s c :
  head (Str.lstrip_by p s) = Some c → p c = false.
Proof.
  induction s as [|c' s' IH]; cbn; [done|].
  destruct (p c') eqn:Hc; [done|]. cbn. by intros [= <-].
Qed.

Lemma lstrip_by_all p s :
  Forall (λ c, p c = true) s → Str.lstrip_by p s = [].
Proof. induction 1 as [|c s' Hc _ IH]; cbn; [done|]. by rewrite Hc. Qed.

Lemma rstrip_by_split p s :
  ∃ post, s = Str.rstrip_by p s ++ post ∧ Forall (λ c, p c = true) post.
Proof.
  unfold Str.rstrip_by. rewrite !rev_reverse_eq.
  destruct (lstrip_by_split p (reverse s)) as (pre & Hs & Hpre).
  exists (reverse pre). split; [|by apply Forall_reverse].
  by rewrite <- reverse_app, <- Hs, reverse_involutive.
Qed.

Lemma rstrip_by_last p s c :
  last (Str.rstrip_by p s) = Some c → p c = false.
Proof.
  unfold Str.rstrip_by. rewrite !rev_reverse_eq, last_reverse.
  apply lstrip_by_head.
Qed.

(** What [strip] returns lies inside its argument, between two runs of
    stripped characters. *)
Lemma strip_by_split p s :
  ∃ pre post, s = pre ++ Str.strip_by p s ++ post
    ∧ Forall (λ c, p c = true) pre ∧ Forall (λ c, p c = true) post.
Proof.
  unfold Str.strip_by.
  destruct (lstrip_by_split p s) as (pre & Hs & Hpre).
  destruct (rstrip_by_split p (Str.lstrip_by p s)) as (post & Ht & Hpost).
  exists pre, post. split; [|done]. by rewrite <- Ht.
Qed.

Lemma strip_by_Forall (P : N → Prop) p s :
  Forall P s → Forall P (Str.strip_by p s).
Proof.
  destruct (strip_by_split p s) as (pre & post & Hs & _).
  rewrite Hs at 1. rewrite !Forall_app. tauto.
Qed.

Lemma strip_by_head p s c :
  head (Str.strip_by p s) = Some c → p c = false.
Proof.
  unfold Str.strip_by.
  destruct (rstrip_by_split p (Str.lstrip_by p s)) as (post & Ht & _).
  intros Hhead. apply (lstrip_by_head p s). rewrite Ht.
  destruct (Str.rstrip_by p (Str.lstrip_by p s)); [done|exact Hhead].
Qed.

Lemma strip_by_last p s c :
  last (Str.strip_by p s) = Some c → p c = false.
Proof. apply rstrip_by_last. Qed.

Lemma strip_by_all p s :
  Forall (λ c, p c = true) s → Str.strip_by p s = [].
Proof.
  intros H. unfold Str.strip_by. by rewrite (lstrip_by_all _ _ H).
Qed.

(** The lines of [split] hold no separator and nothing that is not in the
    text. *)
Lemma split_Forall (P : N → Prop) sep s :
  Forall P s → Forall (Forall P) (Str.split sep s).
Proof.
  induction 1 as [|c s' Hc _ IH]; cbn; [by repeat constructor|].
  destruct (c =? sep); [by constructor|].
  destruct (Str.split sep s') as [|w ws]; [by repeat constructor|].
  apply Forall_cons in IH as [Hw Hws]. by repeat constructor.
Qed.

Lemma split_no_sep sep s :
  Forall (Forall (λ c, c ≠ sep)) (Str.split sep s).
Proof.
  induction s as [|c s' IH]; cbn; [by repeat constructor|].
  destruct (N.eqb_spec c sep) as [->|Hne]; [by constructor|].
  destruct (Str.split sep s') as [|w ws]; [by repeat constructor|].
  apply Forall_cons in IH as [Hw Hws]. by repeat constructor.
Qed.

Lemma mem_true chars c : Str.mem chars c = true ↔ c ∈ chars.
Proof.
  unfold Str.mem. rewrite existsb_exists. split.
  - intros (x & Hx & ->%N.eqb_eq). by apply list_elem_of_In.
  - intros Hc. exists c. split; [by apply list_elem_of_In|apply N.eqb_refl].
Qed.

End Strings.

(** ** Directive patterns *)

Section DirectivePatterns.

Import Re.

Implicit Types (literal kw rest s g : str).

Lemma star_loop_greedy a (k : str → option (option str)) s :
  (∀ rest, is_Some (k rest)) →
  star_loop a k s = k (Str.lstrip_by (atom_matches a) s).
Proof.
  intros Hk. induction s as [|c s' IH]; cbn; [done|].
  destruct (atom_matches a c); [|done].
  rewrite IH. by destruct (Hk (Str.lstrip_by (atom_matches a) s')) as [res ->].
Qed.

Lemma group_loop_greedy a (k : str → str → option (option str)) s taken :
  (∀ rest taken', is_Some (k rest taken')) →
  ∃ g tail, s = g ++ tail
    ∧ Forall (λ c, atom_matches a c = true) g
    ∧ (∀ c, head tail = Some c → atom_matches a c = false)
    ∧ group_loop a k s taken = k tail (taken ++ g).
Proof.
  intros Hk. revert taken. induction s as [|c s' IH]; intros taken; cbn.
  - exists [], []. rewrite (app_nil_r taken). repeat split; (done || constructor).
  - destruct (atom_matches a c) eqn:Hc.
    + destruct (IH (taken ++ [c])) as (g & tail & -> & Hg & Htail & ->).
      exists (c :: g), tail. split_and!; [done|by constructor|done|].
      rewrite <- app_assoc. cbn. by destruct (Hk tail (taken ++ c :: g)) as [res ->].
    + exists [], (c :: s'). rewrite (app_nil_r taken).
      repeat split; [constructor|by intros c' [= <-]].
Qed.

(** After the literal: blanks are skipped, line breaks included, and the
    group takes the rest of the line. *)
Lemma match_here_value rest (g0 : option str) :
  ∃ g, match_here [Star Space; GroupStar Dot] rest g0 = Some (Some g)
       ∧ line_after rest g.
Proof.
  cbn [match_here]. rewrite star_loop_greedy.
  2:{ intros r. destruct (group_loop_greedy Dot (λ _ taken, Some (Some taken))
                            r []) as (g & tail & _ & _ & _ & ->); by eauto. }
  destruct (lstrip_by_split (atom_matches Space) rest) as (ws & Hrest & Hws).
  destruct (group_loop_greedy Dot (λ _ taken, Some (Some taken))
              (Str.lstrip_by (atom_matches Space) rest) [])
    as (g & tail & Hsplit & Hg & Htail & ->); [by eauto|].
  exists g. split; [done|]. exists ws, tail. split_and!.
  - by rewrite <- Hsplit.
  - done.
  - rewrite <- Hsplit. apply (lstrip_by_head (atom_matches Space)).
  - eapply Forall_impl; [exact Hg|]. cbn. intros c Hc ->. done.
  - destruct tail as [|c tail']; [by left|right]. cbn.
    specialize (Htail c eq_refl). cbn in Htail.
    apply negb_false_iff, N.eqb_eq in Htail. by subst.
Qed.

Lemma match_here_literal literal kw rest (g0 : option str) :
  Forall2 (λ p c, chr_matches_ignorecase p c = true) literal kw →
  match_here (directive literal) (kw ++ rest) g0
  = match_here [Star Space; GroupStar Dot] rest g0.
Proof.
  unfold directive. induction 1 as [|p c literal' kw' Hpc _ IH]; [done|].
  cbn. by rewrite Hpc.
Qed.

Lemma match_here_literal_inv literal s (g0 m : option str) :
  match_here (directive literal) s g0 = Some m →
  ∃ kw rest, s = kw ++ rest
    ∧ Forall2 (λ p c, chr_matches_ignorecase p c = true) literal kw
    ∧ match_here [Star Space; GroupStar Dot] rest g0 = Some m.
Proof.
  unfold directive. revert s. induction literal as [|p literal' IH]; intros s.
  - intros H. exists [], s. by split_and!.
  - cbn. destruct s as [|c s']; [done|].
    destruct (chr_matches_ignorecase p c) eqn:Hpc; [|done].
    intros (kw & rest & -> & Hkw & Hm)%IH.
    exists (c :: kw), rest. split_and!; [done|by constructor|done].
Qed.

Lemma search_inv r s (m : option str) :
  search r s = Some m →
  ∃ before rest, s = before ++ rest ∧ match_here r rest None = Some m.
Proof.
  induction s as [|c s' IH]; cbn.
  - destruct (match_here r [] None) eqn:E; [|done].
    intros [= <-]. by exists [], [].
  - destruct (match_here r (c :: s') None) eqn:E.
    + intros [= <-]. by exists [], (c :: s').
    + intros (before & rest & -> & Hm)%IH. by exists (c :: before), rest.
Qed.

Lemma search_skip p0 literal' before s :
  Forall (λ c, chr_matches_ignorecase p0 c = false) before →
  search (directive (p0 :: literal')) (before ++ s)
  = search (directive (p0 :: literal')) s.
Proof.
  induction 1 as [|c before' Hc _ IH]; [done|].
  cbn [app search]. unfold directive at 1. cbn. by rewrite Hc.
Qed.

Lemma search_here r s (m : option str) :
  match_here r s None = Some m → search r s = Some m.
Proof. intros H. destruct s; cbn; by rewrite H. Qed.

(** Whatever a directive pattern captures, anywhere in the input, holds no
    line break. *)
Lemma search_directive_line literal s (m : option str) :
  search (directive literal) s = Some m →
  ∃ g, m = Some g ∧ Forall (λ c, c ≠ 0x0A) g.
Proof.
  intros (before & rest & -> & Hm)%search_inv.
  apply match_here_literal_inv in Hm as (kw & rest' & -> & _ & Hm).
  destruct (match_here_value rest' None) as (g & Hg & _ & _ & _ & _ & _ & Hline & _).
  rewrite Hg in Hm. injection Hm as <-. by exists g.
Qed.

Lemma search_directive_nil literal :
  literal ≠ [] → search (directive literal) [] = None.
Proof. by destruct literal. Qed.

End DirectivePatterns.

(** ** Command parser, continued *)

Section ParserCases.

Implicit Types (user_input key : str) (s : session).

(** The three ways a call can end, each the same for every session. *)
Lemma parse_loop_cases (patterns : list (str * list Re.node)) user_input :
  (∀ s, parse_loop patterns user_input s = (None, s))
  ∨ (∃ msg, ∀ s, parse_loop patterns user_input s = (Some msg, s))
  ∨ (∃ msg key pattern m,
       (key, pattern) ∈ patterns
       ∧ Re.search pattern user_input = Some m
       ∧ Str.strip (default [] m) ≠ []
       ∧ ∀ s, parse_loop patterns user_input s
              = (Some msg,
                 set_context (<[key := Str.strip (default [] m)]> (context s)) s)).
Proof.
  induction patterns as [|[key pattern] rest IH]; cbn; [by left|].
  destruct (Re.search pattern user_input) as [m|] eqn:Hm.
  - right. unfold directive_matched.
    destruct (Str.strip (default [] m)) as [|c v] eqn:Hv; cbn.
    + left. by eexists.
    + right. eexists _, key, pattern, m. rewrite Hv.
      split_and!; [left|done|done|done].
  - destruct IH as [H|[[msg H]|(msg & k & pat & m & Hin & Hm' & Hv & H)]].
    + by left.
    + right; left. by exists msg.
    + right; right. exists msg, k, pat, m. split_and!; [by right|done..].
Qed.

Lemma command_pattern_inv key (pattern : list Re.node) :
  (key, pattern) ∈ command_patterns →
  (key = Str.lit "timeline" ∨ key = Str.lit "prep_level")
  ∧ ∃ literal, pattern = Re.directive literal.
Proof.
  unfold command_patterns. rewrite !elem_of_cons, elem_of_nil.
  intros [[= -> ->]|[[= -> ->]|[]]]; (split; [auto|by eexists]).
Qed.

Lemma strip_trimmed_line (g : str) :
  Forall (λ c, c ≠ 0x0A) g → Str.strip g ≠ [] → trimmed_line (Str.strip g).
Proof.
  intros Hline Hvalue. split_and!; [done| | |].
  - by apply strip_by_Forall.
  - apply strip_by_head.
  - apply strip_by_last.
Qed.

(** A value that a call newly stores. *)
Lemma parse_new_value user_input s key (v : str) :
  context (parse_special_commands user_input s).2 !! key = Some v →
  context s !! key ≠ Some v →
  trimmed_line v ∧ (key = Str.lit "timeline" ∨ key = Str.lit "prep_level").
Proof.
  unfold parse_special_commands.
  destruct (parse_loop_cases command_patterns user_input)
    as [H|[[msg H]|(msg & k & pat & m & Hin & Hm & Hv & H)]];
    rewrite H; cbn; [congruence..|].
  apply command_pattern_inv in Hin as [Hk [literal ->]].
  destruct (search_directive_line _ _ _ Hm) as (g & -> & Hline).
  destruct (decide (k = key)) as [->|Hne].
  - rewrite lookup_insert_eq. intros [= <-] _. split; [|done].
    by apply strip_trimmed_line.
  - rewrite lookup_insert_ne by done. congruence.
Qed.

Lemma parse_context_ok user_input s :
  context_ok (context s) →
  context_ok (context (parse_special_commands user_input s).2).
Proof.
  intros Hctx key v Hv.
  destruct (decide (context s !! key = Some v)) as [Hold|Hnew].
  - by apply Hctx.
  - destruct (parse_new_value _ _ _ _ Hv Hnew). done.
Qed.

End ParserCases.

(** X1.  A message made of a text [before] that holds no occurrence of the
    keyword's first letter, the keyword in any letter case, and [rest]: the
    pattern matches and captures the text of [rest] after its leading blanks
    up to the end of that line.  The skipped blanks may be line breaks, so
    the value can come from a later line.  For the keyword "timeline:" the
    parser handles the message as that directive with that capture. *)
Theorem directive_capture (p0 : N) (literal' before kw rest : str) :
  Forall (λ c, Re.chr_matches_ignorecase p0 c = false) before →
  Forall2 (λ p c, Re.chr_matches_ignorecase p c = true) (p0 :: literal') kw →
  ∃ g, line_after rest g
    ∧ Re.search (Re.directive (p0 :: literal')) (before ++ kw ++ rest)
      = Some (Some g)
    ∧ (p0 :: literal' = Str.lit "timeline:" →
       ∀ s, parse_special_commands (before ++ kw ++ rest) s
            = directive_matched (Str.lit "timeline") (Some g) s).
Proof.
  intros Hbefore Hkw.
  destruct (match_here_value rest None) as (g & Hg & Hline).
  assert (Re.search (Re.directive (p0 :: literal')) (before ++ kw ++ rest)
          = Some (Some g)) as Hsearch.
  { rewrite search_skip by done. apply search_here.
    by rewrite match_here_literal. }
  exists g. split_and!; [done..|].
  intros Hlit s. apply parse_timeline. by rewrite <- Hlit.
Qed.

(** "My Timeline:", a line break, then "  June 2026 " and a further line:
    the capture is taken from the second line. *)
Lemma directive_capture_witness :
  ∃ g, line_after ([0x0A] ++ Str.lit "  June 2026 " ++ [0x0A] ++ Str.lit "Thanks") g
    ∧ Re.search (Re.directive (Str.lit "timeline:"))
        (Str.lit "My " ++ Str.lit "Timeline:" ++ [0x0A]
         ++ Str.lit "  June 2026 " ++ [0x0A] ++ Str.lit "Thanks")
      = Some (Some g).
Proof.
  destruct (directive_capture 0x74 (Str.lit "imeline:") (Str.lit "My ")
              (Str.lit "Timeline:")
              ([0x0A] ++ Str.lit "  June 2026 " ++ [0x0A] ++ Str.lit "Thanks"))
    as (g & Hline & Hsearch & _).
  - vm_compute. repeat constructor.
  - vm_compute. repeat constructor.
  - exists g. split; [exact Hline|exact Hsearch].
Defined.

(** X2.  Whatever value a call of the parser newly puts into the context is
    stored under "timeline" or "prep_level" and is a non-empty single line
    with no whitespace at either end. *)
Theorem stored_value_trimmed (user_input : str) (s : session) (key v : str) :
  context (parse_special_commands user_input s).2 !! key = Some v →
  context s !! key ≠ Some v →
  trimmed_line v ∧ (key = Str.lit "timeline" ∨ key = Str.lit "prep_level").
Proof.
  intros Hv Hnew. unfold parse_special_commands in Hv.
  destruct (parse_loop_cases command_patterns user_input)
    as [H|[[msg H]|(msg & k & pat & m & Hin & Hm & Hvalue & H)]];
    rewrite H in Hv; cbn in Hv; [done..|].
  apply command_pattern_inv in Hin as [Hk [literal ->]].
  destruct (search_directive_line _ _ _ Hm) as (g & -> & Hline).
  destruct (decide (k = key)) as [->|Hne].
  - rewrite lookup_insert_eq in Hv. injection Hv as <-.
    split; [by apply strip_trimmed_line|done].
  - by rewrite lookup_insert_ne in Hv.
Qed.

Lemma stored_value_trimmed_witness :
  trimmed_line (Str.lit "advanced")
  ∧ (Str.lit "prep_level" = Str.lit "timeline"
     ∨ Str.lit "prep_level" = Str.lit "prep_level").
Proof.
  apply (stored_value_trimmed (Str.lit "prep level:   advanced  ")
           fresh_session (Str.lit "prep_level") (Str.lit "advanced")).
  - vm_compute. reflexivity.
  - vm_compute. discriminate.
Defined.

(** X3.  Sending the same message again changes nothing more: the parser
    gives the same answer and leaves the session as the first call left
    it. *)
Theorem parse_idempotent (user_input : str) (s : session) :
  parse_special_commands user_input (parse_special_commands user_input s).2
  = parse_special_commands user_input s.
Proof.
  unfold parse_special_commands.
  destruct (parse_loop_cases command_patterns user_input)
    as [H|[[msg H]|(msg & k & pat & m & _ & _ & _ & H)]];
    rewrite !H; cbn; [done..|].
  f_equal. unfold set_context; cbn. f_equal. apply insert_insert_eq.
Qed.

(** ** Skill suggestions, continued *)

Section SuggestedSkills.

Implicit Types (w : world) (p : profile) (content line : str).

Lemma fetch_dynamic_skills_Ok w p k content :
  get_openai_client w = Ok k →
  chat_completions_create w k (SkillPrompt p) = Ok content →
  fetch_dynamic_skills w p
  = Ok (Str.strip_by (Str.mem bullet_chars)
          <$> filter (λ s, Str.truthy (Str.strip s) = true)
                     (Str.split 0x0A content)).
Proof.
  intros Hk Hc. unfold fetch_dynamic_skills. rewrite Hk. cbn. by rewrite Hc.
Qed.

Lemma truthy_true (s : str) : Str.truthy s = true ↔ s ≠ [].
Proof. by destruct s. Qed.

End SuggestedSkills.

(** X4.  When the completion call returns [content], every suggested skill
    is part of one line of it: it holds no line break and neither starts
    nor ends with one of the stripped bullet characters; there are at most
    as many skills as lines, and a content of blanks only gives no skill at
    all. *)
Theorem suggested_skills_clean (w : world) (p : profile) (k content : str) :
  get_openai_client w = Ok k →
  chat_completions_create w k (SkillPrompt p) = Ok content →
  ∃ skills, fetch_dynamic_skills w p = Ok skills
    ∧ Forall (λ sk, Forall (λ c, c ≠ 0x0A) sk
                    ∧ (∀ c, head sk = Some c → c ∉ bullet_chars)
                    ∧ (∀ c, last sk = Some c → c ∉ bullet_chars)) skills
    ∧ (length skills ≤ length (Str.split 0x0A content))%nat
    ∧ (Forall (λ c, Str.isspace c = true) content → skills = []).
Proof.
  intros Hk Hc. eexists.
  split; [by apply (fetch_dynamic_skills_Ok _ _ k content)|].
  split_and!.
  - apply Forall_fmap, Forall_forall. intros line [_ Hline]%list_elem_of_filter.
    cbn. split_and!.
    + apply strip_by_Forall.
      by apply (proj1 (Forall_forall _ _) (split_no_sep 0x0A content)).
    + intros c Hhead%strip_by_head Hin%mem_true. congruence.
    + intros c Hlast%strip_by_last Hin%mem_true. congruence.
  - rewrite length_fmap. apply length_filter.
  - intros Hblank.
    replace (filter _ (Str.split 0x0A content)) with (@nil str); [done|].
    pose proof (split_Forall _ 0x0A _ Hblank) as Hlines.
    induction Hlines as [|line lines Hline _ IH]; [done|].
    rewrite filter_cons_False; [done|].
    unfold Str.strip. rewrite (strip_by_all _ _ Hline). done.
Qed.

Lemma suggested_skills_clean_witness :
  ∃ skills,
    fetch_dynamic_skills
      (sample_world (Ok (Str.lit "- Rust" ++ [0x0A] ++ Str.lit "- Go"))
         (Raise StopException)) ana = Ok skills
    ∧ (length skills ≤ 2)%nat.
Proof.
  destruct (suggested_skills_clean
              (sample_world (Ok (Str.lit "- Rust" ++ [0x0A] ++ Str.lit "- Go"))
                 (Raise StopException)) ana (Str.lit "sk-test")
              (Str.lit "- Rust" ++ [0x0A] ++ Str.lit "- Go"))
    as (skills & Hfetch & _ & Hlen & _); [vm_compute; reflexivity|reflexivity|].
  exists skills. split; [exact Hfetch|exact Hlen].
Defined.

(** X5.  A line of the completion that is not blank but holds bullet
    characters only, such as a rule of hyphens, is kept and stripped to
    nothing: the empty string is then one of the skills the aggregator
    returns. *)
Theorem bullet_line_gives_empty_skill (w : world) (p : profile)
    (k content line : str) :
  get_openai_client w = Ok k →
  chat_completions_create w k (SkillPrompt p) = Ok content →
  line ∈ Str.split 0x0A content →
  Str.strip line ≠ [] →
  Forall (λ c, c ∈ bullet_chars) line →
  ∃ out, get_skills_for_user w p = Ok out ∧ [] ∈ out.
Proof.
  intros Hk Hc Hline Hnonblank Hbullets.
  eexists. split.
  { apply get_skills_for_user_Ok. by apply (fetch_dynamic_skills_Ok _ _ k content). }
  rewrite elem_of_list_of_set, !elem_of_app. right; right.
  apply list_elem_of_fmap. exists line. split.
  - symmetry. apply strip_by_all.
    eapply Forall_impl; [exact Hbullets|]. intros c. apply mem_true.
  - apply list_elem_of_filter. split; [by apply truthy_true|done].
Qed.

Lemma bullet_line_gives_empty_skill_witness :
  ∃ out,
    get_skills_for_user
      (sample_world (Ok (Str.lit "---" ++ [0x0A] ++ Str.lit "- Go"))
         (Raise StopException)) ana = Ok out
    ∧ [] ∈ out.
Proof.
  apply (bullet_line_gives_empty_skill
           (sample_world (Ok (Str.lit "---" ++ [0x0A] ++ Str.lit "- Go"))
              (Raise StopException)) ana (Str.lit "sk-test")
           (Str.lit "---" ++ [0x0A] ++ Str.lit "- Go") (Str.lit "---")).
  - vm_compute; reflexivity.
  - reflexivity.
  - vm_compute. left.
  - vm_compute. discriminate.
  - vm_compute. repeat constructor.
Defined.

(** X6.  The aggregator's output does not depend on the order of the
    selected industries nor on repetitions among them: two profiles with the
    same profession and the same set of industries, given the same
    suggestions, get the same skills up to order. *)
Theorem aggregator_industry_order (w : world) (p p' : profile)
    (ai : list str) :
  profession p = profession p' →
  (∀ ind, ind ∈ default [] (career_interests p)
          ↔ ind ∈ default [] (career_interests p')) →
  fetch_dynamic_skills w p = Ok ai →
  fetch_dynamic_skills w p' = Ok ai →
  ∃ out out', get_skills_for_user w p = Ok out
    ∧ get_skills_for_user w p' = Ok out'
    ∧ out ≡ₚ out'.
Proof.
  intros Hprof Hind Hai Hai'.
  exists (list_of_set (prof_skills p ++ industry_skills p ++ ai)),
         (list_of_set (prof_skills p' ++ industry_skills p' ++ ai)).
  split; [by apply get_skills_for_user_Ok|].
  split; [by apply get_skills_for_user_Ok|].
  apply NoDup_Permutation; [apply NoDup_list_of_set..|].
  intros s. rewrite !elem_of_list_of_set, !elem_of_app, !elem_of_industry_skills.
  unfold prof_skills. rewrite Hprof.
  by setoid_rewrite Hind.
Qed.

Lemma aggregator_industry_order_witness :
  ∃ out out',
    get_skills_for_user (sample_world (Ok []) (Raise StopException))
      {| name := None; profession := Some (Str.lit "Student");
         experience_years := None; career_goals := None;
         career_interests := Some [Str.lit "IT"; Str.lit "Finance"] |} = Ok out
    ∧ get_skills_for_user (sample_world (Ok []) (Raise StopException))
        {| name := None; profession := Some (Str.lit "Student");
           experience_years := None; career_goals := None;
           career_interests :=
             Some [Str.lit "Finance"; Str.lit "IT"; Str.lit "Finance"] |}
      = Ok out'
    ∧ out ≡ₚ out'.
Proof.
  apply (aggregator_industry_order (sample_world (Ok []) (Raise StopException))
           _ _ []).
  - reflexivity.
  - intros ind. cbn. rewrite !elem_of_cons. tauto.
  - vm_compute; reflexivity.
  - vm_compute; reflexivity.
Defined.

(** ** Mentor chat, continued *)

Section ChatRuns.

Implicit Types (w : world) (s : session) (user_input : str).

Lemma parse_chat_append user_input (r c : str) s :
  parse_special_commands user_input (chat_append r c s)
  = ((parse_special_commands user_input s).1,
     chat_append r c (parse_special_commands user_input s).2).
Proof.
  unfold parse_special_commands.
  destruct (parse_loop_cases command_patterns user_input)
    as [H|[[msg H]|(msg & k & pat & m & _ & _ & _ & H)]]; by rewrite !H.
Qed.

Lemma parse_empty s : parse_special_commands [] s = (None, s).
Proof. apply parse_no_directive; reflexivity. Qed.

Lemma parse_Some_nonempty user_input s (r : str) :
  (parse_special_commands user_input s).1 = Some r → user_input ≠ [].
Proof. intros H ->. by rewrite parse_empty in H. Qed.

(** A submitted message that holds a directive. *)
Lemma show_mentor_chat_directive w user_input s (r : str) :
  (parse_special_commands user_input s).1 = Some r →
  show_mentor_chat w (Some user_input) s
  = (Ok (),
     chat_append (Str.lit "assistant") r
       (chat_append (Str.lit "user") user_input
          (parse_special_commands user_input s).2)).
Proof.
  intros Hr. unfold show_mentor_chat.
  rewrite truthy_opt_Some by (by eapply parse_Some_nonempty).
  cbn [from_option id]. rewrite parse_chat_append, Hr. done.
Qed.

(** A submitted message that holds none. *)
Lemma show_mentor_chat_question w user_input s :
  user_input ≠ [] →
  (parse_special_commands user_input s).1 = None →
  show_mentor_chat w (Some user_input) s
  = match try_except_Exception (get_ai_mentor_response w user_input s)
            (λ e, Ok (Str.lit "Sorry, there was an error: " ++ exn_str e)) with
    | Ok r => (Ok (), chat_append (Str.lit "assistant") r
                        (chat_append (Str.lit "user") user_input s))
    | Raise e => (Raise e, chat_append (Str.lit "user") user_input s)
    end.
Proof.
  intros Hinput Hnone. unfold show_mentor_chat.
  rewrite truthy_opt_Some by done. cbn [from_option id].
  by rewrite (parse_None _ s _ Hnone).
Qed.

(** A question that the service answers. *)
Lemma show_mentor_chat_reply w user_input s (k text : str) :
  user_input ≠ [] →
  (parse_special_commands user_input s).1 = None →
  get_openai_client w = Ok k →
  chat_completions_create w k
    (MentorPrompt (user_profile s) (context s) user_input) = Ok text →
  show_mentor_chat w (Some user_input) s
  = (Ok (),
     chat_append (Str.lit "assistant") text
       (chat_append (Str.lit "user") user_input s)).
Proof.
  intros Hinput Hnone Hk Htext.
  rewrite show_mentor_chat_question by done.
  unfold get_ai_mentor_response. rewrite Hk. cbn. by rewrite Htext.
Qed.

End ChatRuns.

(** X7.  A message that holds a directive is answered by the parser alone:
    the run completes with the user's turn and the confirmation appended,
    whatever the state of the completion service and of its key, since
    neither is consulted. *)
Theorem directive_answered_locally (w : world) (user_input : str)
    (s : session) (r : str) :
  (parse_special_commands user_input s).1 = Some r →
  (show_mentor_chat w (Some user_input) s).1 = Ok ()
  ∧ chat_history (show_mentor_chat w (Some user_input) s).2
    = chat_history s
      ++ [ {| role := Str.lit "user"; content := user_input |};
           {| role := Str.lit "assistant"; content := r |} ]
  ∧ context (show_mentor_chat w (Some user_input) s).2
    = context (parse_special_commands user_input s).2
  ∧ ∀ w', show_mentor_chat w' (Some user_input) s
          = show_mentor_chat w (Some user_input) s.
Proof.
  intros Hr. rewrite (show_mentor_chat_directive w _ _ _ Hr).
  unfold chat_append. cbn [fst snd chat_history context].
  split_and!; [done| |done|].
  - by rewrite parse_chat_history, <- app_assoc.
  - intros w'. by rewrite (show_mentor_chat_directive w' _ _ _ Hr).
Qed.

(** The directive is recorded although the world has no completion key. *)
Lemma directive_answered_locally_witness :
  (show_mentor_chat
     {| secrets := ∅; secrets_toml := None; environ := ∅;
        chat_completions_create := λ _ _, Raise StopException;
        requests_get := λ _, Raise StopException |}
     (Some (Str.lit "timeline: June 2026")) fresh_session).1 = Ok ().
Proof.
  apply (directive_answered_locally _ (Str.lit "timeline: June 2026")
           fresh_session (Str.lit "Timeline recorded: June 2026.")).
  vm_compute. reflexivity.
Defined.

(** X8.  A question without directive, with the client built and the
    completion call returning [text]: the call was made with the profile
    and the context of the session and the question itself, and [text] is
    appended unchanged as the assistant's turn after the user's. *)
Theorem mentor_reply_verbatim (w : world) (user_input : str) (s : session)
    (k text : str) :
  user_input ≠ [] →
  (parse_special_commands user_input s).1 = None →
  get_openai_client w = Ok k →
  chat_completions_create w k
    (MentorPrompt (user_profile s) (context s) user_input) = Ok text →
  show_mentor_chat w (Some user_input) s
  = (Ok (),
     chat_append (Str.lit "assistant") text
       (chat_append (Str.lit "user") user_input s)).
Proof.
  intros Hinput Hnone Hk Htext.
  rewrite show_mentor_chat_question by done.
  unfold get_ai_mentor_response. rewrite Hk. cbn. by rewrite Htext.
Qed.

Lemma mentor_reply_verbatim_witness :
  show_mentor_chat (sample_world (Ok (Str.lit "Learn SQL.")) (Raise StopException))
    (Some (Str.lit "What next?")) fresh_session
  = (Ok (),
     chat_append (Str.lit "assistant") (Str.lit "Learn SQL.")
       (chat_append (Str.lit "user") (Str.lit "What next?") fresh_session)).
Proof.
  apply (mentor_reply_verbatim _ _ _ (Str.lit "sk-test")).
  - discriminate.
  - vm_compute; reflexivity.
  - vm_compute; reflexivity.
  - reflexivity.
Defined.

(** X9.  What a directive stored reaches the mentor: after a run with a
    directive, the next question is sent with the context as the parser
    left it, and the four turns of the two runs end the history in
    order. *)
Theorem directive_reaches_prompt (w1 w2 : world) (directive question : str)
    (s : session) (k msg text : str) :
  (parse_special_commands directive s).1 = Some msg →
  question ≠ [] →
  (parse_special_commands question s).1 = None →
  get_openai_client w2 = Ok k →
  chat_completions_create w2 k
    (MentorPrompt (user_profile s)
       (context (parse_special_commands directive s).2) question) = Ok text →
  chat_history
    (show_mentor_chat w2 (Some question)
       (show_mentor_chat w1 (Some directive) s).2).2
  = chat_history s
    ++ [ {| role := Str.lit "user"; content := directive |};
         {| role := Str.lit "assistant"; content := msg |};
         {| role := Str.lit "user"; content := question |};
         {| role := Str.lit "assistant"; content := text |} ].
Proof.
  intros Hmsg Hq Hnone Hk Htext.
  rewrite (show_mentor_chat_directive w1 _ _ _ Hmsg). cbn [snd].
  rewrite (show_mentor_chat_reply w2 question _ k text).
  - unfold chat_append. cbn [fst snd chat_history context].
    rewrite parse_chat_history, <- !app_assoc. done.
  - done.
  - by rewrite (parse_fst _ _ s).
  - done.
  - unfold chat_append. cbn [user_profile context]. by rewrite parse_user_profile.
Qed.

Lemma directive_reaches_prompt_witness :
  length
    (chat_history
       (show_mentor_chat
          {| secrets := {[ Str.lit "OPENAI_API_KEY" := Str.lit "sk-test" ]};
             secrets_toml := None; environ := ∅;
             chat_completions_create := λ _ pr,
               match pr with
               | MentorPrompt _ ctx _ =>
                   Ok (default (Str.lit "no timeline")
                         (ctx !! Str.lit "timeline"))
               | SkillPrompt _ => Ok []
               end;
             requests_get := λ _, Raise StopException |}
          (Some (Str.lit "When should I start?"))
          (show_mentor_chat (sample_world (Ok []) (Raise StopException))
             (Some (Str.lit "timeline: June 2026")) fresh_session).2).2)
  = 4%nat.
Proof.
  rewrite (directive_reaches_prompt _ _ (Str.lit "timeline: June 2026")
             (Str.lit "When should I start?") fresh_session (Str.lit "sk-test")
             (Str.lit "Timeline recorded: June 2026.") (Str.lit "June 2026")).
  - reflexivity.
  - vm_compute; reflexivity.
  - discriminate.
  - vm_compute; reflexivity.
  - vm_compute; reflexivity.
  - vm_compute; reflexivity.
Defined.

(** X10.  The handler of the chat page catches [Exception] only.  When the
    mentor call ends with something else, such as the [st.stop()] of a
    missing key, the run raises it, and the user's turn, appended before
    the call, stays in the history without a reply. *)
Theorem chat_stop_not_caught (w : world) (user_input : str) (s : session)
    (e : exn) :
  user_input ≠ [] →
  (parse_special_commands user_input s).1 = None →
  get_ai_mentor_response w user_input s = Raise e →
  is_Exception e = false →
  show_mentor_chat w (Some user_input) s
  = (Raise e, chat_append (Str.lit "user") user_input s).
Proof.
  intros Hinput Hnone Hraise He.
  rewrite show_mentor_chat_question by done.
  rewrite Hraise. cbn. by rewrite He.
Qed.

Lemma chat_stop_not_caught_witness :
  show_mentor_chat
    {| secrets := ∅; secrets_toml := None; environ := ∅;
       chat_completions_create := λ _ _, Ok [];
       requests_get := λ _, Raise StopException |}
    (Some (Str.lit "What next?")) fresh_session
  = (Raise StopException,
     chat_append (Str.lit "user") (Str.lit "What next?") fresh_session).
Proof.
  apply chat_stop_not_caught.
  - discriminate.
  - vm_compute; reflexivity.
  - vm_compute; reflexivity.
  - reflexivity.
Defined.

(** ** News page *)

Section NewsPage.

Implicit Types (w : world) (industry : str).

Lemma comprehension_Raise {A B} (f : A → result B) (l : list A) x e :
  x ∈ l → f x = Raise e → ∃ e', comprehension f l = Raise e'.
Proof.
  intros Hin Hx. induction l as [|y l IH]; [by apply elem_of_nil in Hin|].
  cbn. apply elem_of_cons in Hin as [<-|Hin].
  - rewrite Hx. cbn. by eexists.
  - destruct (f y); [|by eexists]. cbn.
    destruct (IH Hin) as [e' ->]. by eexists.
Qed.

End NewsPage.

(** X11.  The list of articles is converted as a whole: when one article of
    an otherwise good response lacks the title or the url, or is no object
    at all, the fetcher returns the empty list and the other articles are
    lost with it. *)
Theorem one_bad_article_empties_news (w : world) (industry : str)
    (r : response) (data : list (str * json)) (articles : list json)
    (a : json) (e : exn) :
  requests_get w (news_url w industry) = Ok r →
  ¬ (400 ≤ status_code r < 600)%Z →
  body r = Some (JDict data) →
  Json.assoc (Str.lit "articles") data = Some (JList articles) →
  a ∈ articles →
  Json.getitem a (Str.lit "title") = Raise e
  ∨ Json.getitem a (Str.lit "url") = Raise e →
  fetch_industry_news w industry = Ok [].
Proof.
  intros Hr Hstatus Hbody Harticles Ha Hbad.
  set (pair_of := λ a : json,
         title ← Json.getitem a (Str.lit "title");
         url ← Json.getitem a (Str.lit "url");
         mret (title, url)).
  assert (∃ e', pair_of a = Raise e') as [e' He'].
  { unfold pair_of. destruct Hbad as [->| ->]; [by eexists|].
    destruct (Json.getitem a (Str.lit "title")); by eexists. }
  destruct (comprehension_Raise pair_of _ _ _ Ha He') as [e'' Hall].
  apply (fetch_industry_news_error _ _ e'').
  unfold fetch_industry_news_try. rewrite Hr. cbn.
  unfold raise_for_status, response_json.
  rewrite bool_decide_eq_false_2 by done. cbn. rewrite Hbody. cbn.
  rewrite Harticles. cbn. exact Hall.
Qed.

(** Two articles, the second without url. *)
Lemma one_bad_article_empties_news_witness :
  fetch_industry_news
    (sample_world (Ok [])
       (Ok {| status_code := 200;
              body := Some (JDict
                [ (Str.lit "articles",
                   JList [ JDict [ (Str.lit "title", JStr (Str.lit "A"));
                                   (Str.lit "url", JStr (Str.lit "http://a")) ];
                           JDict [ (Str.lit "title", JStr (Str.lit "B")) ] ]) ]) |}))
    (Str.lit "Finance")
  = Ok [].
Proof.
  eapply (one_bad_article_empties_news _ _ _ _ _
            (JDict [ (Str.lit "title", JStr (Str.lit "B")) ])
            (Exception "KeyError" (Str.lit "url"))).
  - reflexivity.
  - cbn. lia.
  - reflexivity.
  - reflexivity.
  - right. left.
  - right. reflexivity.
Defined.

(** X12.  The news page never raises.  With an empty input box it shows
    nothing; otherwise it shows the links when the fetcher returned some,
    and the same "no news" note whether the service failed or had no
    article. *)
Theorem news_page_view (w : world) (industry : str) :
  ∃ view, show_industry_news w industry = Ok view
    ∧ (industry = [] → view = NothingShown)
    ∧ (industry ≠ [] →
       (∀ e, fetch_industry_news_try w (news_url w industry) = Raise e →
             view = NoNewsInfo)
       ∧ (fetch_industry_news_try w (news_url w industry) = Ok [] →
          view = NoNewsInfo)
       ∧ (∀ items, items ≠ [] →
            fetch_industry_news_try w (news_url w industry) = Ok items →
            view = NewsLinks items)).
Proof.
  unfold show_industry_news. destruct industry as [|c industry'].
  - exists NothingShown. by split_and!.
  - cbn [Str.truthy]. unfold fetch_industry_news, try_except.
    destruct (fetch_industry_news_try _ _) as [[|item items]|e]; cbn;
      eexists; (split; [done|]); (split; [done|]); intros _;
      split_and!; try done; intros; simplify_eq; done.
Qed.

Lemma news_page_view_witness :
  show_industry_news
    (sample_world (Ok []) (Raise (Exception "ConnectionError" [])))
    (Str.lit "Finance")
  = Ok NoNewsInfo.
Proof.
  destruct (news_page_view
              (sample_world (Ok []) (Raise (Exception "ConnectionError" [])))
              (Str.lit "Finance")) as (view & Hview & _ & Hshown).
  rewrite Hview. f_equal.
  apply (proj1 (Hshown ltac:(discriminate)) (Exception "ConnectionError" [])).
  reflexivity.
Defined.

(** ** API key *)

Section ApiKey.

Implicit Types (f : secrets_files) (w : world).

Lemma load_openai_api_key_files_of w :
  load_openai_api_key (files_of w) = Ok (get_openai_api_key w).
Proof.
  unfold load_openai_api_key, get_openai_api_key, files_of. cbn.
  destruct (Str.truthy_opt _); [done|]. by destruct (secrets_toml w).
Qed.

Lemma load_openai_api_key_readable f w (key : option str) :
  load_openai_api_key f = Ok key →
  get_openai_api_key (readable_world f w) = key.
Proof.
  unfold load_openai_api_key, get_openai_api_key, readable_world. cbn.
  destruct (streamlit_secrets f) as [store|]; [|done]. cbn.
  destruct (Str.truthy_opt _); [by intros [= <-]|].
  destruct (local_secrets_toml f) as [[config|]|]; cbn; [|done|];
    by intros [= <-].
Qed.

Lemma load_openai_client_Ok f (k : str) :
  load_openai_client f = Ok k ↔ k ≠ [] ∧ load_openai_api_key f = Ok (Some k).
Proof.
  unfold load_openai_client.
  destruct (load_openai_api_key f) as [[[|c k']|]|]; cbn; split;
    (by intros [= <-]) || (by intros [? [= <-]]) || (by intros [? ?]).
Qed.

End ApiKey.

(** X13.  Reading the completion key.  Without a Streamlit secrets store
    the first read raises, and so do the key lookup and the client, also
    when [secrets.toml] holds a key: the fallback is not reached.  With a
    non-empty key in the store that key is returned and [secrets.toml] is
    not read.  Otherwise the key of [secrets.toml] is returned, nothing when
    the file is absent, and what [toml.load] raises when it cannot be
    parsed.  The client is built exactly when a non-empty key is found in
    this way; when the reads succeed without one, the script is stopped.
    In a world whose files were read, the reads give the model of the key
    and the client used by the pages. *)
Theorem openai_client_key (f : secrets_files) :
  (∀ e, streamlit_secrets f = Raise e →
        load_openai_api_key f = Raise e ∧ load_openai_client f = Raise e)
  ∧ (∀ store k, streamlit_secrets f = Ok store →
        store !! Str.lit "OPENAI_API_KEY" = Some k → k ≠ [] →
        load_openai_api_key f = Ok (Some k) ∧ load_openai_client f = Ok k)
  ∧ (∀ store, streamlit_secrets f = Ok store →
        Str.truthy_opt (store !! Str.lit "OPENAI_API_KEY") = false →
        (local_secrets_toml f = None → load_openai_api_key f = Ok None)
        ∧ (∀ e, local_secrets_toml f = Some (Raise e) →
                load_openai_api_key f = Raise e)
        ∧ (∀ config, local_secrets_toml f = Some (Ok config) →
                load_openai_api_key f
                = Ok (config !! Str.lit "OPENAI_API_KEY")))
  ∧ (∀ k, load_openai_client f = Ok k
          ↔ k ≠ []
            ∧ ∃ store, streamlit_secrets f = Ok store
                ∧ (store !! Str.lit "OPENAI_API_KEY" = Some k
                   ∨ (Str.truthy_opt (store !! Str.lit "OPENAI_API_KEY") = false
                      ∧ ∃ config, local_secrets_toml f = Some (Ok config)
                          ∧ config !! Str.lit "OPENAI_API_KEY" = Some k)))
  ∧ (∀ key, load_openai_api_key f = Ok key →
            (∀ k, load_openai_client f ≠ Ok k) →
            load_openai_client f = Raise StopException)
  ∧ (∀ w, load_openai_api_key (files_of w) = Ok (get_openai_api_key w)
          ∧ load_openai_client (files_of w) = get_openai_client w).
Proof.
  assert (∀ k : str, k ≠ [] → Str.truthy k = true) as Htruthy
    by (by intros [|c k]).
  split_and!.
  - intros e He. unfold load_openai_client, load_openai_api_key.
    by rewrite He.
  - intros store k Hstore Hk Hne.
    assert (load_openai_api_key f = Ok (Some k)) as Hload.
    { unfold load_openai_api_key. rewrite Hstore. cbn. rewrite Hk. cbn.
      by rewrite Htruthy. }
    split; [done|]. by apply load_openai_client_Ok.
  - intros store Hstore Hfalsy. unfold load_openai_api_key.
    rewrite Hstore. cbn. rewrite Hfalsy.
    split_and!; [by intros ->|by intros e ->|by intros config ->].
  - intros k. rewrite load_openai_client_Ok. unfold load_openai_api_key.
    destruct (streamlit_secrets f) as [store|e]; cbn.
    + destruct (Str.truthy_opt (store !! Str.lit "OPENAI_API_KEY")) eqn:Hs.
      * split.
        -- intros [Hk [= Hstore]]. split; [done|]. exists store. by auto.
        -- intros [Hk (store' & [= <-] & [Hstore|[? _]])]; [|congruence].
           by rewrite Hstore.
      * split.
        -- intros [Hk Hfile]. split; [done|]. exists store.
           split; [done|]. right. split; [done|].
           destruct (local_secrets_toml f) as [[config|]|]; cbn in Hfile;
             [|done..]. exists config. split; [done|]. by injection Hfile.
        -- intros [Hk (store' & [= <-] & [Hstore|(_ & config & -> & Hfile)])].
           ++ rewrite Hstore in Hs. cbn in Hs. by rewrite Htruthy in Hs.
           ++ cbn. by rewrite Hfile.
    + split; [by intros [_ ?]|]. by intros [_ (store & ? & _)].
  - intros key Hkey Hnone. unfold load_openai_client. rewrite Hkey. cbn.
    destruct key as [[|c k']|]; [done| |done].
    destruct (Hnone (c :: k')). apply load_openai_client_Ok. by split.
  - intros w. split; [apply load_openai_api_key_files_of|].
    unfold load_openai_client. by rewrite load_openai_api_key_files_of.
Qed.

(** No secrets store, and a key in [secrets.toml]: the lookup raises and
    the key of the file is not reached. *)
Lemma openai_client_key_witness :
  load_openai_api_key
    {| streamlit_secrets :=
         Raise (Exception "StreamlitSecretNotFoundError" (Str.lit "No secrets found"));
       local_secrets_toml :=
         Some (Ok {[ Str.lit "OPENAI_API_KEY" := Str.lit "sk-file" ]}) |}
  = Raise (Exception "StreamlitSecretNotFoundError" (Str.lit "No secrets found")).
Proof.
  apply (proj1 (openai_client_key _)). reflexivity.
Defined.

(** ** Skill rating *)

Section Dict.

Context {V : Type}.
Implicit Types (key : str) (items : list (str * V)).

Lemma dict_get_set_eq key (v : V) items :
  dict_get key (dict_set key v items) = Some v.
Proof.
  induction items as [|[k x] rest IH]; cbn.
  - by rewrite decide_True.
  - destruct (decide (k = key)) as [->|Hne]; cbn.
    + by rewrite decide_True.
    + by rewrite decide_False.
Qed.

Lemma dict_get_set_ne key key' (v : V) items :
  key ≠ key' → dict_get key' (dict_set key v items) = dict_get key' items.
Proof.
  intros Hne. induction items as [|[k x] rest IH]; cbn.
  - by rewrite decide_False.
  - destruct (decide (k = key)) as [->|Hk]; cbn.
    + by rewrite !decide_False.
    + destruct (decide (k = key')); [done|exact IH].
Qed.

(** An assignment never moves or removes a key: the old keys stay where
    they are and a new one goes last. *)
Lemma dict_set_keys key (v : V) items :
  (dict_set key v items).*1
  = if decide (key ∈ items.*1) then items.*1 else items.*1 ++ [key].
Proof.
  induction items as [|[k x] rest IH]; cbn.
  - rewrite decide_False; [done|]. apply not_elem_of_nil.
  - destruct (decide (k = key)) as [->|Hk]; cbn.
    + rewrite decide_True; [done|]. left.
    + rewrite IH. destruct (decide (key ∈ rest.*1)) as [Hin|Hout].
      * rewrite decide_True; [done|]. by right.
      * rewrite decide_False; [done|]. rewrite not_elem_of_cons. by split.
Qed.

Lemma dict_set_keys_prefix key (v : V) items :
  items.*1 `prefix_of` (dict_set key v items).*1.
Proof.
  rewrite dict_set_keys. destruct (decide _); [done|]. by apply prefix_app_r.
Qed.

Lemma dict_set_NoDup key (v : V) items :
  NoDup items.*1 → NoDup (dict_set key v items).*1.
Proof.
  intros Hnd. rewrite dict_set_keys. destruct (decide _) as [|Hout]; [done|].
  apply NoDup_app. split_and!; [done| |apply NoDup_singleton].
  intros x Hx ->%list_elem_of_singleton. done.
Qed.

Lemma dict_set_Forall (P : V → Prop) key (v : V) items :
  P v → Forall (λ kv, P kv.2) items →
  Forall (λ kv, P kv.2) (dict_set key v items).
Proof.
  intros Hv. induction 1 as [|[k x] rest Hx Hrest IH]; cbn.
  - by repeat constructor.
  - destruct (decide (k = key)); by constructor.
Qed.

End Dict.

Section RatingForm.

Implicit Types (slider : slider_widget) (w : world) (s : session)
  (skills : list str).

Lemma rate_skills_frame slider skills s :
  user_profile (rate_skills slider skills s).2 = user_profile s
  ∧ chat_history (rate_skills slider skills s).2 = chat_history s
  ∧ context (rate_skills slider skills s).2 = context s.
Proof.
  revert s. induction skills as [|skill rest IH]; intros s; cbn; [done|].
  destruct (slider _ _ _ _) as [curr_level|]; [|done].
  destruct (slider _ _ _ _) as [target_level|]; [|done].
  destruct (IH (set_personal_skills
                  (dict_set skill (levels_dict curr_level target_level)
                     (personal_skills s)) s)) as (-> & -> & ->).
  done.
Qed.

Lemma rate_skills_levels slider skills s :
  slider_in_range slider →
  Forall (λ kv, levels_ok kv.2) (personal_skills s) →
  Forall (λ kv, levels_ok kv.2) (personal_skills (rate_skills slider skills s).2).
Proof.
  intros Hslider. revert s.
  induction skills as [|skill rest IH]; intros s Hs; cbn; [done|].
  destruct (slider (Str.lit "current_" ++ skill) _ _ _)
    as [curr_level|] eqn:Hcurr; [|done].
  destruct (slider (Str.lit "target_" ++ skill) _ _ _)
    as [target_level|] eqn:Htarget; [|done].
  apply IH. cbn. apply (dict_set_Forall levels_ok); [|done].
  apply Hslider in Hcurr, Htarget.
  exists curr_level, target_level. split; [done|]. lia.
Qed.

Lemma rate_skills_keys slider skills s :
  (personal_skills s).*1
    `prefix_of` (personal_skills (rate_skills slider skills s).2).*1.
Proof.
  revert s. induction skills as [|skill rest IH]; intros s; cbn; [done|].
  destruct (slider _ _ _ _) as [curr_level|]; [|done].
  destruct (slider _ _ _ _) as [target_level|]; [|done].
  etrans; [|apply IH]. cbn. apply dict_set_keys_prefix.
Qed.

Lemma rate_skills_NoDup slider skills s :
  NoDup (personal_skills s).*1 →
  NoDup (personal_skills (rate_skills slider skills s).2).*1.
Proof.
  revert s. induction skills as [|skill rest IH]; intros s Hs; cbn; [done|].
  destruct (slider _ _ _ _) as [curr_level|]; [|done].
  destruct (slider _ _ _ _) as [target_level|]; [|done].
  apply IH. cbn. by apply dict_set_NoDup.
Qed.

Lemma rate_skills_keeps_entry slider skills s (skill : str) :
  (∃ c t, dict_get skill (personal_skills s) = Some (levels_dict c t)) →
  ∃ c t, dict_get skill (personal_skills (rate_skills slider skills s).2)
         = Some (levels_dict c t).
Proof.
  revert s. induction skills as [|skill' rest IH]; intros s Hs; cbn; [done|].
  destruct (slider _ _ _ _) as [curr_level|]; [|done].
  destruct (slider _ _ _ _) as [target_level|]; [|done].
  apply IH. cbn. destruct (decide (skill' = skill)) as [->|Hne].
  - rewrite dict_get_set_eq. by eauto.
  - by rewrite dict_get_set_ne.
Qed.

Lemma rate_skills_rated slider skills s (skill : str) :
  (rate_skills slider skills s).1 = Ok () →
  skill ∈ skills →
  ∃ c t, dict_get skill (personal_skills (rate_skills slider skills s).2)
         = Some (levels_dict c t).
Proof.
  revert s. induction skills as [|skill' rest IH]; intros s; cbn.
  - intros _ Hin. by apply elem_of_nil in Hin.
  - destruct (slider _ _ _ _) as [curr_level|]; [|done].
    destruct (slider _ _ _ _) as [target_level|]; [|done].
    intros Hok [->|Hin]%elem_of_cons.
    + apply rate_skills_keeps_entry. cbn. rewrite dict_get_set_eq. by eauto.
    + by apply IH.
Qed.

Lemma dict_get_Some_key {V} (key : str) (items : list (str * V)) (v : V) :
  dict_get key items = Some v → key ∈ items.*1.
Proof.
  induction items as [|[k x] rest IH]; cbn; [done|].
  destruct (decide (k = key)) as [->|]; [left|]. intros H. right. by apply IH.
Qed.

Lemma skill_rating_form_frame slider w s :
  user_profile (skill_rating_form slider w s).2 = user_profile s
  ∧ chat_history (skill_rating_form slider w s).2 = chat_history s
  ∧ context (skill_rating_form slider w s).2 = context s.
Proof.
  unfold skill_rating_form. destruct (get_skills_for_user _ _); [|done].
  apply rate_skills_frame.
Qed.

Lemma show_skills_courses_session slider w w_later s :
  (show_skills_courses slider w w_later s).2 = (skill_rating_form slider w s).2.
Proof.
  unfold show_skills_courses. by destruct (skill_rating_form _ _ _) as [[|] s'].
Qed.

Lemma show_skills_courses_frame slider w w_later s :
  user_profile (show_skills_courses slider w w_later s).2 = user_profile s
  ∧ chat_history (show_skills_courses slider w w_later s).2 = chat_history s
  ∧ context (show_skills_courses slider w w_later s).2 = context s.
Proof. rewrite show_skills_courses_session. apply skill_rating_form_frame. Qed.

Lemma levels_dict_current (c t : Z) :
  levels_dict c t !! Str.lit "current" = Some c.
Proof. apply lookup_insert_eq. Qed.

Lemma levels_dict_target (c t : Z) :
  levels_dict c t !! Str.lit "target" = Some t.
Proof.
  unfold levels_dict. rewrite lookup_insert_ne by (vm_compute; discriminate).
  apply lookup_singleton_eq.
Qed.

Lemma levels_ok_gap (skill : str) (levels : gmap str Z) :
  levels_ok levels →
  (0 ≤ Current_Level (gap_row_of skill levels)
   ∧ Current_Level (gap_row_of skill levels)
     ≤ Target_Level (gap_row_of skill levels)
   ∧ Target_Level (gap_row_of skill levels) ≤ 5
   ∧ 0 ≤ Gap (gap_row_of skill levels) ≤ 5)%Z.
Proof.
  intros (c & t & -> & Hc). unfold gap_row_of.
  rewrite levels_dict_current, levels_dict_target. cbn. lia.
Qed.

Lemma show_skills_courses_levels slider w w_later s :
  slider_in_range slider →
  Forall (λ kv, levels_ok kv.2) (personal_skills s) →
  Forall (λ kv, levels_ok kv.2)
    (personal_skills (show_skills_courses slider w w_later s).2).
Proof.
  intros Hslider Hs. rewrite show_skills_courses_session.
  unfold skill_rating_form.
  destruct (get_skills_for_user _ _); [|done]. by apply rate_skills_levels.
Qed.

Lemma show_skills_courses_NoDup slider w w_later s :
  NoDup (personal_skills s).*1 →
  NoDup (personal_skills (show_skills_courses slider w w_later s).2).*1.
Proof.
  intros Hs. rewrite show_skills_courses_session. unfold skill_rating_form.
  destruct (get_skills_for_user _ _); [|done]. by apply rate_skills_NoDup.
Qed.

Lemma levels_ok_rows (items : list (str * gmap str Z)) :
  Forall (λ kv, levels_ok kv.2) items →
  Forall (λ row, (0 ≤ Current_Level row ∧ Current_Level row ≤ Target_Level row
                  ∧ Target_Level row ≤ 5 ∧ 0 ≤ Gap row ≤ 5)%Z)
    (skill_gap_analysis_df items).
Proof.
  intros H. rewrite skill_gap_analysis_df_fmap. apply Forall_fmap.
  eapply Forall_impl; [exact H|]. intros [skill levels] Hok.
  exact (levels_ok_gap skill levels Hok).
Qed.

Lemma untouched_slider_in_range : slider_in_range untouched_slider.
Proof.
  intros key lo hi value x. unfold untouched_slider.
  case_bool_decide; [by intros [= <-]|done].
Qed.

End RatingForm.

(** X14.  Whatever the skills page does, and also when it raises half-way,
    the levels it leaves in the session are well formed as long as the
    sliders respect their bounds: each skill has both levels, with
    [0 <= current <= target <= 5], so no row of the dashboard shows a gap
    outside [0, 5]. *)
Theorem rating_keeps_levels (slider : slider_widget) (w w_later : world)
    (s : session) :
  slider_in_range slider →
  Forall (λ kv, levels_ok kv.2) (personal_skills s) →
  Forall (λ kv, levels_ok kv.2)
    (personal_skills (show_skills_courses slider w w_later s).2)
  ∧ Forall (λ row, (0 ≤ Current_Level row ∧ Current_Level row ≤ Target_Level row
                    ∧ Target_Level row ≤ 5 ∧ 0 ≤ Gap row ≤ 5)%Z)
      (skill_gap_analysis_df
         (personal_skills (show_skills_courses slider w w_later s).2)).
Proof.
  intros Hslider Hs.
  pose proof (show_skills_courses_levels slider w w_later s Hslider Hs) as H.
  split; [exact H|]. by apply levels_ok_rows.
Qed.

Lemma rating_keeps_levels_witness :
  Forall (λ kv : str * gmap str Z, levels_ok kv.2)
    (personal_skills
       (show_skills_courses untouched_slider
          (sample_world (Ok (Str.lit "- Rust")) (Raise StopException))
          (sample_world (Ok (Str.lit "- Rust")) (Raise StopException))
          (set_user_profile ana fresh_session)).2).
Proof.
  apply (proj1 (rating_keeps_levels untouched_slider
                  (sample_world (Ok (Str.lit "- Rust")) (Raise StopException))
                  (sample_world (Ok (Str.lit "- Rust")) (Raise StopException))
                  (set_user_profile ana fresh_session)
                  untouched_slider_in_range ltac:(constructor))).
Defined.

(** X15.  The rating form only adds to the dashboard: the skills rated
    before keep their places at the head of the table, no skill appears
    twice, and the rest of the session (profile, chat history, context) is
    not touched. *)
Theorem rating_keeps_rows (slider : slider_widget) (w w_later : world)
    (s : session) :
  Skill <$> skill_gap_analysis_df (personal_skills s)
    `prefix_of`
    Skill <$> skill_gap_analysis_df
                (personal_skills (show_skills_courses slider w w_later s).2)
  ∧ (NoDup (personal_skills s).*1 →
     NoDup (personal_skills (show_skills_courses slider w w_later s).2).*1)
  ∧ user_profile (show_skills_courses slider w w_later s).2 = user_profile s
  ∧ chat_history (show_skills_courses slider w w_later s).2 = chat_history s
  ∧ context (show_skills_courses slider w w_later s).2 = context s.
Proof.
  rewrite show_skills_courses_session.
  destruct (skill_rating_form_frame slider w s) as (Hp & Hh & Hc).
  split_and!; [| |done..].
  - assert (∀ items, Skill <$> skill_gap_analysis_df items = items.*1) as Hkeys.
    { intros items. rewrite skill_gap_analysis_df_fmap, <- list_fmap_compose.
      apply list_fmap_ext. by intros _ [??] _. }
    rewrite !Hkeys. unfold skill_rating_form.
    destruct (get_skills_for_user _ _); [|done]. apply rate_skills_keys.
  - unfold skill_rating_form.
    destruct (get_skills_for_user _ _); [|done]. apply rate_skills_NoDup.
Qed.

Lemma rating_keeps_rows_witness :
  NoDup
    (personal_skills
       (show_skills_courses untouched_slider
          (sample_world (Ok (Str.lit "- Rust")) (Raise StopException))
          (sample_world (Ok (Str.lit "- Rust")) (Raise StopException))
          (set_user_profile ana fresh_session)).2).*1.
Proof.
  apply (proj1 (proj2 (rating_keeps_rows untouched_slider _ _ _))).
  constructor.
Defined.

(** X16.  After a rating form that completed, every skill the aggregator
    returned has its entry in the session, with both levels. *)
Theorem rated_skills_present (slider : slider_widget) (w : world)
    (s : session) (skills : list str) (skill : str) :
  get_skills_for_user w (user_profile s) = Ok skills →
  (skill_rating_form slider w s).1 = Ok () →
  skill ∈ skills →
  skill ∈ (personal_skills (skill_rating_form slider w s).2).*1
  ∧ ∃ c t, dict_get skill (personal_skills (skill_rating_form slider w s).2)
           = Some (levels_dict c t).
Proof.
  unfold skill_rating_form. intros -> Hok Hin.
  destruct (rate_skills_rated _ _ _ _ Hok Hin) as (c & t & Hget).
  split; [by eapply dict_get_Some_key|by eauto].
Qed.

Lemma rated_skills_present_witness :
  Str.lit "Rust"
  ∈ (personal_skills
       (skill_rating_form untouched_slider
          (sample_world (Ok (Str.lit "- Rust")) (Raise StopException))
          (set_user_profile ana fresh_session)).2).*1.
Proof.
  apply (proj1 (rated_skills_present untouched_slider
                  (sample_world (Ok (Str.lit "- Rust")) (Raise StopException))
                  (set_user_profile ana fresh_session)
                  (list_of_set (prof_skills ana ++ industry_skills ana
                                ++ [Str.lit "Rust"]))
                  (Str.lit "Rust")
                  ltac:(vm_compute; reflexivity)
                  ltac:(vm_compute; reflexivity)
                  ltac:(apply elem_of_list_of_set; rewrite !elem_of_app;
                        right; right; left))).
Defined.

(** X17.  When the completion call fails while the skills page gathers the
    skills, the page raises that error before any slider is shown and
    nothing is written to the session; the script, having no handler
    around the page, ends with the same error. *)
Theorem skills_page_failure (slider : slider_widget) (w w_later : world)
    (s : session) (k : str) (e : exn) :
  get_openai_client w = Ok k →
  chat_completions_create w k (SkillPrompt (user_profile s)) = Raise e →
  show_skills_courses slider w w_later s = (Raise e, s)
  ∧ ∀ u, profile_truthy (user_profile s) = true →
         choice u = SkillsCourses →
         main w w_later u s = (Raise e, s).
Proof.
  intros Hk He.
  assert (∀ sl, show_skills_courses sl w w_later s = (Raise e, s)) as Hpage.
  { intros sl. unfold show_skills_courses, skill_rating_form, get_skills_for_user.
    by rewrite (fetch_dynamic_skills_Raise _ _ _ _ Hk He). }
  split; [apply Hpage|]. intros u Hprofile Hchoice. unfold main.
  assert (Str.truthy_opt (get_openai_api_key w) = true) as ->.
  { unfold get_openai_client in Hk.
    by destruct (get_openai_api_key w) as [[|c k']|]. }
  rewrite Hprofile, Hchoice. cbn. by rewrite Hpage.
Qed.

Lemma skills_page_failure_witness :
  main (sample_world (Raise (Exception "RateLimitError" (Str.lit "429")))
          (Raise StopException))
       (sample_world (Ok []) (Raise StopException))
       (sample_ui SkillsCourses None) (set_user_profile ana fresh_session)
  = (Raise (Exception "RateLimitError" (Str.lit "429")),
     set_user_profile ana fresh_session).
Proof.
  apply (proj2 (skills_page_failure untouched_slider
                  (sample_world (Raise (Exception "RateLimitError" (Str.lit "429")))
                     (Raise StopException))
                  (sample_world (Ok []) (Raise StopException))
                  (set_user_profile ana fresh_session) (Str.lit "sk-test")
                  (Exception "RateLimitError" (Str.lit "429"))
                  ltac:(vm_compute; reflexivity) ltac:(reflexivity))).
  - reflexivity.
  - reflexivity.
Defined.

(** ** Dashboard *)

(** X18.  The dashboard reads four keys of the profile and fails with a
    [KeyError] when one is missing.  With the four present it never raises:
    without rated skills it shows the hint only and builds no table, so the
    index lookup that an empty table would fail is not reached; otherwise
    it shows the gap table and charts each skill's gap. *)
Theorem dashboard_view (s : session) :
  (is_Some (name (user_profile s)) → is_Some (profession (user_profile s)) →
   is_Some (experience_years (user_profile s)) →
   is_Some (career_goals (user_profile s)) →
   (personal_skills s = [] → show_dashboard s = Ok None)
   ∧ (personal_skills s ≠ [] →
      show_dashboard s
      = Ok (Some (skill_gap_analysis_df (personal_skills s),
                  (λ kv, (kv.1, Gap (gap_row_of kv.1 kv.2)))
                    <$> personal_skills s))))
  ∧ (name (user_profile s) = None ∨ profession (user_profile s) = None
     ∨ experience_years (user_profile s) = None
     ∨ career_goals (user_profile s) = None →
     ∃ detail, show_dashboard s = Raise (Exception "KeyError" detail)).
Proof.
  unfold show_dashboard. split.
  - intros [n ->] [p ->] [x ->] [g ->]. cbn. split.
    + by intros ->.
    + intros Hne. destruct (personal_skills s) as [|[skill levels] rest] eqn:Hps;
        [done|]. rewrite skill_gap_analysis_df_fmap. cbn.
      rewrite <- list_fmap_compose. do 4 f_equal.
      apply list_fmap_ext. by intros _ [??] _.
  - destruct (name (user_profile s)); cbn; [|by eauto].
    destruct (profession (user_profile s)); cbn; [|by eauto].
    destruct (experience_years (user_profile s)); cbn; [|by eauto].
    destruct (career_goals (user_profile s)); cbn; [|by eauto].
    intros [?|[?|[?|?]]]; done.
Qed.

Lemma dashboard_view_witness :
  show_dashboard (set_user_profile ana fresh_session) = Ok None.
Proof.
  apply (proj1 (dashboard_view (set_user_profile ana fresh_session)));
    (by eexists) || reflexivity.
Defined.

(** ** The script *)

Section Script.

Implicit Types (w : world) (u : ui) (s : session) (p : profile).

Lemma profile_truthy_false p : profile_truthy p = false ↔ p = empty_profile.
Proof.
  split; [|by intros ->].
  by destruct p as [[?|] [?|] [?|] [?|] [?|]].
Qed.

Lemma profile_complete_truthy p : profile_complete p → profile_truthy p = true.
Proof. by intros ([? Hn] & _); destruct p; cbn in *; subst. Qed.

Lemma user_profile_form_cases (f : profile_form) s :
  user_profile_form f s = s
  ∨ (save_profile f = true ∧ full_name f ≠ [] ∧ career_goals_text f ≠ []
     ∧ user_profile_form f s
       = set_user_profile
           {| name := Some (full_name f);
              profession := Some (current_profession f);
              experience_years := Some (years_of_experience f);
              career_goals := Some (career_goals_text f);
              career_interests := Some (industries_of_interest f) |} s).
Proof.
  unfold user_profile_form. destruct (save_profile f); [|by left].
  destruct (full_name f); [by left|].
  destruct (career_goals_text f); [by left|]. right. by split_and!.
Qed.

(** Where a run of the script can leave the session. *)
Lemma main_cases w w_later u s :
  (main w w_later u s).2 = s
  ∨ (user_profile s = empty_profile
     ∧ (main w w_later u s).2 = user_profile_form (form u) s)
  ∨ (profile_truthy (user_profile s) = true
     ∧ Str.truthy_opt (get_openai_api_key w) = true
     ∧ ((main w w_later u s).2
        = (show_skills_courses (slider u) w w_later s).2
        ∨ (main w w_later u s).2 = (show_mentor_chat w (chat_input u) s).2)).
Proof.
  unfold main. destruct (Str.truthy_opt (get_openai_api_key w)); [|by left].
  destruct (profile_truthy (user_profile s)) eqn:Hp; cbn [negb].
  - destruct (choice u); cbn [snd]; [by left| | |by left].
    + right; right. split_and!; [done..|]. left.
      by destruct (show_skills_courses _ _ _ _).
    + right; right. split_and!; [done..|]. by right.
  - right; left. by apply profile_truthy_false in Hp.
Qed.

Lemma parse_personal_skills (user_input : str) s :
  personal_skills (parse_special_commands user_input s).2 = personal_skills s.
Proof.
  destruct (parse_loop_session command_patterns user_input s) as (ctx & H & _).
  unfold parse_special_commands. by rewrite H.
Qed.

Lemma show_mentor_chat_frame w (user_input : option str) s :
  user_profile (show_mentor_chat w user_input s).2 = user_profile s
  ∧ personal_skills (show_mentor_chat w user_input s).2 = personal_skills s
  ∧ (context (show_mentor_chat w user_input s).2 = context s
     ∨ ∃ input, context (show_mentor_chat w user_input s).2
                = context (parse_special_commands input s).2).
Proof.
  destruct user_input as [[|c input]|]; [by auto| |by auto].
  destruct (parse_special_commands (c :: input) s).1 as [r|] eqn:Hparse.
  - rewrite (show_mentor_chat_directive _ _ _ _ Hparse).
    unfold chat_append. cbn [snd user_profile personal_skills context].
    rewrite parse_user_profile, parse_personal_skills. by eauto.
  - rewrite show_mentor_chat_question by done.
    destruct (try_except_Exception _ _); by auto.
Qed.

(** Under the key check of the script the client is always built, so a
    chat run ends in its handler at worst. *)
Lemma show_mentor_chat_completes w (user_input : option str) s :
  Str.truthy_opt (get_openai_api_key w) = true →
  raises_Exception_only w →
  (show_mentor_chat w user_input s).1 = Ok ()
  ∧ (chat_history (show_mentor_chat w user_input s).2 = chat_history s
     ∨ ∃ question reply,
         chat_history (show_mentor_chat w user_input s).2
         = chat_history s
           ++ [ {| role := Str.lit "user"; content := question |};
                {| role := Str.lit "assistant"; content := reply |} ]).
Proof.
  intros Hkey Hworld. destruct user_input as [[|c input]|]; [by auto| |by auto].
  destruct (parse_special_commands (c :: input) s).1 as [r|] eqn:Hparse.
  - rewrite (show_mentor_chat_directive _ _ _ _ Hparse).
    unfold chat_append. cbn [fst snd chat_history]. split; [done|]. right.
    exists (c :: input), r. by rewrite parse_chat_history, <- app_assoc.
  - rewrite show_mentor_chat_question by done.
    assert (∃ r, try_except_Exception (get_ai_mentor_response w (c :: input) s)
              (λ e, Ok (Str.lit "Sorry, there was an error: " ++ exn_str e))
            = Ok r) as [r ->].
    { unfold get_ai_mentor_response, get_openai_client.
      destruct (get_openai_api_key w) as [[|c' k]|]; [done| |done]. cbn.
      destruct (chat_completions_create _ _ _) as [text|e] eqn:Hcall; cbn;
        [by eauto|].
      rewrite (Hworld _ _ _ Hcall). by eauto. }
    unfold chat_append. cbn [fst snd chat_history]. split; [done|]. right.
    exists (c :: input), r. by rewrite <- app_assoc.
Qed.

Lemma alternating_snoc (history : list chat_turn) (question reply : str) :
  alternating history →
  alternating (history ++ [ {| role := Str.lit "user"; content := question |};
                            {| role := Str.lit "assistant"; content := reply |} ]).
Proof.
  intros [exchanges ->]. exists (exchanges ++ [(question, reply)]).
  by rewrite bind_app.
Qed.

(** An invariant of single runs is one of whole sessions. *)
Lemma run_session_invariant (P : session → Prop)
    (Q : world * world * ui → Prop) (steps : list (world * world * ui)) s :
  (∀ w w_later u s, Q (w, w_later, u) → P s → P (main w w_later u s).2) →
  Forall Q steps → P s → P (run_session steps s).
Proof.
  intros Hstep Hsteps. revert s.
  induction Hsteps as [|[[w w_later] u] rest Hq _ IH]; intros s Hs; cbn; [done|].
  apply IH. by apply Hstep.
Qed.

Lemma Forall_True_steps (steps : list (world * world * ui)) :
  Forall (λ _, True) steps.
Proof. by apply Forall_forall. Qed.

Lemma main_profile_invariant w w_later u s :
  s = fresh_session ∨ profile_complete (user_profile s) →
  (main w w_later u s).2 = fresh_session
  ∨ profile_complete (user_profile (main w w_later u s).2).
Proof.
  intros Hs.
  destruct (main_cases w w_later u s) as [->|[[Hempty ->]|(Htruthy & _ & Hpage)]].
  - done.
  - destruct Hs as [->|Hcomplete].
    + destruct (user_profile_form_cases (form u) fresh_session)
        as [->|(_ & _ & _ & ->)]; [by left|right].
      cbn. unfold profile_complete; cbn. by split_and!.
    + apply profile_complete_truthy in Hcomplete.
      by rewrite Hempty in Hcomplete.
  - right. destruct Hs as [->|Hcomplete]; [done|].
    destruct Hpage as [->| ->].
    + by rewrite (proj1 (show_skills_courses_frame _ _ _ _)).
    + by rewrite (proj1 (show_mentor_chat_frame _ _ _)).
Qed.

Lemma show_dashboard_total s :
  is_Some (name (user_profile s)) → is_Some (profession (user_profile s)) →
  is_Some (experience_years (user_profile s)) →
  is_Some (career_goals (user_profile s)) →
  ∃ v, show_dashboard s = Ok v.
Proof.
  unfold show_dashboard. intros [n ->] [p ->] [x ->] [g ->]. cbn.
  destruct (personal_skills s) as [|[skill levels] rest]; [by eauto|].
  rewrite skill_gap_analysis_df_fmap. cbn. by eauto.
Qed.

End Script.

Section ScriptFrames.

Implicit Types (w : world) (u : ui) (s : session).

Lemma user_profile_form_frame (f : profile_form) s :
  personal_skills (user_profile_form f s) = personal_skills s
  ∧ chat_history (user_profile_form f s) = chat_history s
  ∧ context (user_profile_form f s) = context s.
Proof.
  by destruct (user_profile_form_cases f s) as [->|(_ & _ & _ & ->)].
Qed.

Lemma main_user_profile w w_later u s :
  profile_truthy (user_profile s) = true →
  user_profile (main w w_later u s).2 = user_profile s.
Proof.
  intros Htruthy.
  destruct (main_cases w w_later u s)
    as [->|[[Hempty _]|(_ & _ & [->| ->])]]; [done| | |].
  - by rewrite Hempty in Htruthy.
  - apply show_skills_courses_frame.
  - apply show_mentor_chat_frame.
Qed.

Lemma main_context_ok w w_later u s :
  context_ok (context s) → context_ok (context (main w w_later u s).2).
Proof.
  intros Hctx.
  destruct (main_cases w w_later u s)
    as [->|[[_ ->]|(_ & _ & [->| ->])]]; [done| | |].
  - by rewrite (proj2 (proj2 (user_profile_form_frame _ _))).
  - by rewrite (proj2 (proj2 (show_skills_courses_frame _ _ _ _))).
  - destruct (show_mentor_chat_frame w (chat_input u) s)
      as (_ & _ & [->|[input ->]]); [done|]. by apply parse_context_ok.
Qed.

Lemma main_levels_ok w w_later u s :
  slider_in_range (slider u) →
  Forall (λ kv, levels_ok kv.2) (personal_skills s)
  ∧ NoDup (personal_skills s).*1 →
  Forall (λ kv, levels_ok kv.2) (personal_skills (main w w_later u s).2)
  ∧ NoDup (personal_skills (main w w_later u s).2).*1.
Proof.
  intros Hslider [Hlevels Hkeys].
  destruct (main_cases w w_later u s)
    as [->|[[_ ->]|(_ & _ & [->| ->])]]; [done| | |].
  - by rewrite (proj1 (user_profile_form_frame _ _)).
  - split; [by apply show_skills_courses_levels
           |by apply show_skills_courses_NoDup].
  - by rewrite (proj1 (proj2 (show_mentor_chat_frame _ _ _))).
Qed.

Lemma main_alternating w w_later u s :
  raises_Exception_only w →
  alternating (chat_history s) →
  alternating (chat_history (main w w_later u s).2).
Proof.
  intros Hworld Hs.
  destruct (main_cases w w_later u s)
    as [->|[[_ ->]|(_ & Hkey & [->| ->])]]; [done| | |].
  - by rewrite (proj1 (proj2 (user_profile_form_frame _ _))).
  - by rewrite (proj1 (proj2 (show_skills_courses_frame _ _ _ _))).
  - destruct (show_mentor_chat_completes w (chat_input u) s Hkey Hworld)
      as (_ & [->|(question & reply & ->)]); [done|].
    by apply alternating_snoc.
Qed.

Lemma script_cases (f : secrets_files) w w_later u s :
  (∃ e, load_openai_api_key f = Raise e
        ∧ script f w w_later u s = (Raise e, s))
  ∨ (∃ key, load_openai_api_key f = Ok key
            ∧ get_openai_api_key (readable_world f w) = key
            ∧ script f w w_later u s = main (readable_world f w) w_later u s).
Proof.
  unfold script. destruct (load_openai_api_key f) as [key|e] eqn:Hload.
  - right. exists key. split_and!; [done| |done].
    by apply load_openai_api_key_readable.
  - left. by exists e.
Qed.

Lemma run_script_session_invariant (P : session → Prop)
    (steps : list (secrets_files * world * world * ui)) s :
  (∀ w w_later u s, P s → P (main w w_later u s).2) →
  P s → P (run_script_session steps s).
Proof.
  intros Hstep. revert s.
  induction steps as [|[[[f w] w_later] u] rest IH]; intros s Hs; cbn; [done|].
  apply IH.
  destruct (script_cases f w w_later u s)
    as [(e & _ & ->)|(key & _ & _ & ->)]; [done|]. by apply Hstep.
Qed.

End ScriptFrames.

(** X19.  While no profile is saved a run of the script never reaches a
    page.  It ends with the exception of the secrets read when line 26
    cannot read the completion key, and otherwise with [st.stop()], after
    the key check or after the intake form.  Skills, chat history and
    context stay as they are, and the profile itself changes only when a
    non-empty key was read and the form is saved with a name and career
    goals, to a profile holding all five fields. *)
Theorem intake_gate (f : secrets_files) (w w_later : world) (u : ui)
    (s : session) :
  user_profile s = empty_profile →
  ((∃ e, load_openai_api_key f = Raise e
         ∧ (script f w w_later u s).1 = Raise e)
   ∨ (∃ key, load_openai_api_key f = Ok key
             ∧ (script f w w_later u s).1 = Raise StopException))
  ∧ personal_skills (script f w w_later u s).2 = personal_skills s
  ∧ chat_history (script f w w_later u s).2 = chat_history s
  ∧ context (script f w w_later u s).2 = context s
  ∧ ((script f w w_later u s).2 = s
     ∨ (∃ k, load_openai_api_key f = Ok (Some k) ∧ k ≠ [])
       ∧ save_profile (form u) = true
       ∧ full_name (form u) ≠ []
       ∧ career_goals_text (form u) ≠ []
       ∧ user_profile (script f w w_later u s).2
         = {| name := Some (full_name (form u));
              profession := Some (current_profession (form u));
              experience_years := Some (years_of_experience (form u));
              career_goals := Some (career_goals_text (form u));
              career_interests := Some (industries_of_interest (form u)) |}).
Proof.
  intros Hempty.
  destruct (script_cases f w w_later u s)
    as [(e & Hload & ->)|(key & Hload & Hkey & ->)].
  { split_and!; [left; by exists e|done..|by left]. }
  unfold main. rewrite Hkey.
  destruct (Str.truthy_opt key) eqn:Htruthy; cbn [negb].
  2:{ split_and!; [right; by exists key|done..|by left]. }
  rewrite Hempty. cbn [profile_truthy empty_profile negb fst snd].
  destruct (user_profile_form_frame (form u) s) as (-> & -> & ->).
  split_and!; [right; by exists key|done..|].
  destruct (user_profile_form_cases (form u) s) as [->|(? & ? & ? & ->)];
    [by left|right]. split_and!; [|done..].
  destruct key as [[|c k]|]; [done| |done]. exists (c :: k). by split.
Qed.

(** A fresh session, no secrets store, a question typed on the chat page:
    the run ends with the error of the read and the history stays empty. *)
Lemma intake_gate_witness :
  chat_history
    (script
       {| streamlit_secrets :=
            Raise (Exception "StreamlitSecretNotFoundError" (Str.lit "No secrets found"));
          local_secrets_toml := None |}
       (sample_world (Ok []) (Raise StopException))
       (sample_world (Ok []) (Raise StopException))
       (sample_ui MentorshipChatbot (Some (Str.lit "Hello")))
       fresh_session).2 = [].
Proof.
  apply (proj1 (proj2 (proj2
           (intake_gate
              {| streamlit_secrets :=
                   Raise (Exception "StreamlitSecretNotFoundError"
                            (Str.lit "No secrets found"));
                 local_secrets_toml := None |}
              (sample_world (Ok []) (Raise StopException))
              (sample_world (Ok []) (Raise StopException))
              (sample_ui MentorshipChatbot (Some (Str.lit "Hello")))
              fresh_session eq_refl)))).
Defined.

(** X20.  Once a profile is saved no run of the script changes it: the
    session has no path that edits or clears the profile. *)
Theorem profile_fixed_once_saved (steps : list (world * world * ui))
    (s : session) :
  profile_truthy (user_profile s) = true →
  user_profile (run_session steps s) = user_profile s.
Proof.
  intros Htruthy.
  apply (run_session_invariant (λ s', user_profile s' = user_profile s)
           (λ _, True)); [|apply Forall_True_steps|done].
  intros w w_later u s' _ Hs'. rewrite <- Hs'. apply main_user_profile.
  by rewrite Hs'.
Qed.

Lemma profile_fixed_once_saved_witness :
  user_profile
    (run_session
       [ (sample_world (Ok []) (Raise StopException),
          sample_world (Ok []) (Raise StopException),
          sample_ui MentorshipChatbot (Some (Str.lit "timeline: May"))) ]
       (set_user_profile ana fresh_session))
  = ana.
Proof.
  apply (profile_fixed_once_saved _ (set_user_profile ana fresh_session)).
  reflexivity.
Defined.

(** X21.  In every session of script runs that starts fresh, either
    nothing has happened yet (the session is still the fresh one) or the
    profile holds all five fields.  The dashboard therefore never fails on
    a missing profile key: a run that chooses it completes, or is stopped
    by the key check or the intake form, or ends at line 26 with the
    exception of the secrets read. *)
Theorem session_profile_complete
    (steps : list (secrets_files * world * world * ui)) :
  (run_script_session steps fresh_session = fresh_session
   ∨ profile_complete (user_profile (run_script_session steps fresh_session)))
  ∧ ∀ f w w_later u,
      choice u = Dashboard →
      (script f w w_later u (run_script_session steps fresh_session)).1 = Ok ()
      ∨ (script f w w_later u (run_script_session steps fresh_session)).1
        = Raise StopException
      ∨ ∃ e, load_openai_api_key f = Raise e
             ∧ (script f w w_later u (run_script_session steps fresh_session)).1
               = Raise e.
Proof.
  assert (run_script_session steps fresh_session = fresh_session
          ∨ profile_complete
              (user_profile (run_script_session steps fresh_session)))
    as Hinv.
  { apply (run_script_session_invariant
             (λ s, s = fresh_session ∨ profile_complete (user_profile s)));
      [|by left].
    intros w w_later u s. apply main_profile_invariant. }
  split; [exact Hinv|]. intros f w w_later u Hchoice.
  destruct (script_cases f w w_later u (run_script_session steps fresh_session))
    as [(e & Hload & ->)|(key & _ & _ & ->)].
  { right; right. by exists e. }
  unfold main.
  destruct (Str.truthy_opt (get_openai_api_key _)); [|by right; left].
  destruct (profile_truthy _) eqn:Htruthy; [|by right; left].
  rewrite Hchoice. cbn [negb fst]. left.
  destruct Hinv as [Hfresh|(Hn & Hp & Hx & Hg & _)].
  { by rewrite Hfresh in Htruthy. }
  destruct (show_dashboard_total (run_script_session steps fresh_session)
              Hn Hp Hx Hg) as [v ->]. done.
Qed.

(** The profile is saved in the first run, the dashboard chosen in the
    second, which completes. *)
Lemma session_profile_complete_witness :
  (script (files_of (sample_world (Ok []) (Raise StopException)))
     (sample_world (Ok []) (Raise StopException))
     (sample_world (Ok []) (Raise StopException))
     (sample_ui Dashboard None)
     (run_script_session
        [ (files_of (sample_world (Ok []) (Raise StopException)),
           sample_world (Ok []) (Raise StopException),
           sample_world (Ok []) (Raise StopException),
           sample_ui Dashboard None) ]
        fresh_session)).1 = Ok ().
Proof.
  destruct (proj2 (session_profile_complete
                     [ (files_of (sample_world (Ok []) (Raise StopException)),
                        sample_world (Ok []) (Raise StopException),
                        sample_world (Ok []) (Raise StopException),
                        sample_ui Dashboard None) ])
              (files_of (sample_world (Ok []) (Raise StopException)))
              (sample_world (Ok []) (Raise StopException))
              (sample_world (Ok []) (Raise StopException))
              (sample_ui Dashboard None) eq_refl)
    as [Hok|[Hstop|(e & Hload & _)]].
  - exact Hok.
  - vm_compute in Hstop. discriminate Hstop.
  - vm_compute in Hload. discriminate Hload.
Defined.

(** X22.  In every session that starts fresh the context holds nothing but
    the keys "timeline" and "prep_level", each with a non-empty one-line
    value without surrounding whitespace. *)
Theorem session_context_ok (steps : list (world * world * ui)) :
  context_ok (context (run_session steps fresh_session)).
Proof.
  apply (run_session_invariant (λ s, context_ok (context s)) (λ _, True));
    [|apply Forall_True_steps|].
  - intros w w_later u s _. apply main_context_ok.
  - intros key v Hv. cbn in Hv. by rewrite lookup_empty in Hv.
Qed.

(** X23.  In every session that starts fresh and whose sliders respect
    their bounds, each rated skill appears once, with both levels and
    [0 <= current <= target <= 5]; every gap of the dashboard lies in
    [0, 5]. *)
Theorem session_levels_ok (steps : list (world * world * ui)) :
  Forall (λ step, slider_in_range (slider step.2)) steps →
  Forall (λ kv, levels_ok kv.2)
    (personal_skills (run_session steps fresh_session))
  ∧ NoDup (personal_skills (run_session steps fresh_session)).*1
  ∧ Forall (λ row, (0 ≤ Current_Level row ∧ Current_Level row ≤ Target_Level row
                    ∧ Target_Level row ≤ 5 ∧ 0 ≤ Gap row ≤ 5)%Z)
      (skill_gap_analysis_df (personal_skills (run_session steps fresh_session))).
Proof.
  intros Hsteps.
  assert (Forall (λ kv, levels_ok kv.2)
            (personal_skills (run_session steps fresh_session))
          ∧ NoDup (personal_skills (run_session steps fresh_session)).*1)
    as [Hlevels Hkeys].
  { apply (run_session_invariant
             (λ s, Forall (λ kv, levels_ok kv.2) (personal_skills s)
                   ∧ NoDup (personal_skills s).*1)
             (λ step, slider_in_range (slider step.2))); [|done|].
    - intros w w_later u s Hslider. by apply main_levels_ok.
    - split; constructor. }
  split_and!; [done..|]. by apply levels_ok_rows.
Qed.

(** The profile is saved in the first run, the skills rated in the
    second. *)
Lemma session_levels_ok_witness :
  NoDup
    (personal_skills
       (run_session
          [ (sample_world (Ok (Str.lit "- Rust")) (Raise StopException),
             sample_world (Ok (Str.lit "- Rust")) (Raise StopException),
             sample_ui SkillsCourses None);
            (sample_world (Ok (Str.lit "- Rust")) (Raise StopException),
             sample_world (Ok (Str.lit "- Rust")) (Raise StopException),
             sample_ui SkillsCourses None) ]
          fresh_session)).*1.
Proof.
  apply (proj1 (proj2 (session_levels_ok
           [ (sample_world (Ok (Str.lit "- Rust")) (Raise StopException),
              sample_world (Ok (Str.lit "- Rust")) (Raise StopException),
              sample_ui SkillsCourses None);
             (sample_world (Ok (Str.lit "- Rust")) (Raise StopException),
              sample_world (Ok (Str.lit "- Rust")) (Raise StopException),
              sample_ui SkillsCourses None) ]
           ltac:(repeat (apply Forall_cons; split;
                           [apply untouched_slider_in_range|]);
                 apply Forall_nil_2)))).
Defined.

(** X24.  In every session that starts fresh, with a completion service
    that fails with [Exception]s only, the chat history is a sequence of
    exchanges: each user turn is followed by one assistant turn. *)
Theorem session_history_alternating (steps : list (world * world * ui)) :
  Forall (λ step, raises_Exception_only step.1.1) steps →
  alternating (chat_history (run_session steps fresh_session)).
Proof.
  intros Hsteps.
  apply (run_session_invariant (λ s, alternating (chat_history s))
           (λ step, raises_Exception_only step.1.1)); [|done|by exists []].
  intros w w_later u s Hworld. by apply main_alternating.
Qed.

(** The profile is saved in the first run; the question of the second
    meets a rate-limited service. *)
Lemma session_history_alternating_witness :
  alternating
    (chat_history
       (run_session
          [ (sample_world (Ok []) (Raise StopException),
             sample_world (Ok []) (Raise StopException),
             sample_ui MentorshipChatbot None);
            (sample_world (Raise (Exception "RateLimitError" (Str.lit "429")))
               (Raise StopException),
             sample_world (Ok []) (Raise StopException),
             sample_ui MentorshipChatbot (Some (Str.lit "Hello"))) ]
          fresh_session)).
Proof.
  apply session_history_alternating.
  repeat (apply Forall_cons; split;
            [intros k pr e; cbn; by intros [= <-]|]).
  apply Forall_nil_2.
Defined.

(** X25.  In a run of the script the chat page always completes when the
    completion service fails with [Exception]s only: the key check at the
    top has passed, so the client is built, and an error of the call ends
    in the handler.  The run appends nothing (no message) or exactly the
    two turns of one exchange. *)
Theorem chat_page_completes (w w_later : world) (u : ui) (s : session) :
  Str.truthy_opt (get_openai_api_key w) = true →
  profile_truthy (user_profile s) = true →
  choice u = MentorshipChatbot →
  raises_Exception_only w →
  (main w w_later u s).1 = Ok ()
  ∧ (chat_history (main w w_later u s).2 = chat_history s
     ∨ ∃ question reply,
         chat_history (main w w_later u s).2
         = chat_history s
           ++ [ {| role := Str.lit "user"; content := question |};
                {| role := Str.lit "assistant"; content := reply |} ]).
Proof.
  intros Hkey Hprofile Hchoice Hworld. unfold main.
  rewrite Hkey, Hprofile, Hchoice. cbn [negb].
  by apply show_mentor_chat_completes.
Qed.

Lemma chat_page_completes_witness :
  (main (sample_world (Raise (Exception "RateLimitError" (Str.lit "429")))
           (Raise StopException))
        (sample_world (Ok []) (Raise StopException))
        (sample_ui MentorshipChatbot (Some (Str.lit "Hello")))
        (set_user_profile ana fresh_session)).1 = Ok ().
Proof.
  apply (chat_page_completes
           (sample_world (Raise (Exception "RateLimitError" (Str.lit "429")))
              (Raise StopException))
           (sample_world (Ok []) (Raise StopException))
           (sample_ui MentorshipChatbot (Some (Str.lit "Hello")))
           (set_user_profile ana fresh_session)).
  - vm_compute; reflexivity.
  - reflexivity.
  - reflexivity.
  - intros k pr e. cbn. by intros [= <-].
Defined.
